(** * convert2rhel.backup: the rollback journal and the package tracker

    A shallow embedding of [convert2rhel/backup/__init__.py]:
    [BackupController] (the LIFO journal of restorable changes),
    [RestorablePackage], [ChangedRPMPackagesController], [remove_pkgs] and
    [remove_epoch_from_yum_nevra_notation].

    Python objects are mutable and the module talks to the host (logger,
    subprocesses, downloads).  Every function is written in explicit
    state-passing style: it takes the object it mutates and the trace of
    effects performed so far, and returns its result (a value or a raised
    exception) with the new object and the extended trace. *)

From Stdlib Require Import List String Ascii Bool Arith ZArith Lia DecimalString.
Import ListNotations.
Local Open Scope string_scope.
Local Open Scope list_scope.

(** ** Python values, exceptions and results *)

(** A keyword argument of a call: left out, or passed with a value. *)
Inductive kwarg (A : Type) : Type :=
| Omitted
| Passed (a : A).
Arguments Omitted {A}.
Arguments Passed {A} a.

(** Where an exception class sits in Python's hierarchy.  The handler of
    [pop_all] is [except (Exception, SystemExit)]: it catches the first two
    kinds, and lets the rest of [BaseException] ([KeyboardInterrupt],
    [GeneratorExit]) through. *)
Inductive base_kind : Type :=
| DerivesException
| IsSystemExit
| OtherBaseException.

(** An exception raised by a collaborator ([enable()], [restore()]).
    [fe_str] is what [str(e)] gives. *)
Record foreign_exc : Type := mkForeign {
  fe_class : string;
  fe_kind : base_kind;
  fe_str : string
}.

(** The exceptions this module raises itself, and the foreign ones that
    travel through it. *)
Inductive exc : Type :=
| IndexError (msg : string)
| TypeError (msg : string)
| CriticalError (id_ title description diagnosis : string)
| Foreign (e : foreign_exc).

Inductive result (A : Type) : Type :=
| Return (a : A)
| Raise (e : exc).
Arguments Return {A} a.
Arguments Raise {A} e.

(** How a call to an abstract method ended. *)
Inductive outcome : Type :=
| Returned
| Raised (e : foreign_exc).

(** ** Restorable changes and the journal *)

(** An instance of a [RestorableChange] subclass: its identity and
    [__class__.__name__].  What [enable()] and [restore()] do is the
    subclass's business and comes from the host (below). *)
Record restorable : Type := mkRestorable {
  rid : nat;
  rclass : string
}.

(** What can be handed to [push]: the sentinel [BackupController.partition],
    an instance of [RestorableChange], or any other object ([text] is how
    [%s] renders it). *)
Inductive pyobject : Type :=
| PartitionSentinel
| Restorable (r : restorable)
| NotRestorable (text : string).

(** An element of [_restorables]. *)
Inductive entry : Type :=
| Partition
| Change (r : restorable).

Record BackupController : Type := mkBackupController {
  _restorables : list entry
}.

(** ** Packages *)

Record RestorablePackage : Type := mkRestorablePackage {
  name : string;
  path : option string
}.

Record ChangedRPMPackagesController : Type := mkChangedRPMPackagesController {
  installed_pkgs : list string;
  removed_pkgs : list RestorablePackage
}.

(** The arguments of one call of [utils.download_pkg]. *)
Record download_args : Type := mkDownloadArgs {
  dl_pkg : string;
  dl_dest : string;
  dl_set_releasever : bool;
  dl_reposdir : kwarg (option string);
  dl_custom_releasever : option string;
  dl_varsdir : option string
}.

(** ** Effects *)

(** The methods of [loggerinst] the module calls. *)
Inductive level : Type :=
| Debug
| Info
| Task
| Warning
| CriticalNoExit.

Inductive event : Type :=
| EvLog (lvl : level) (msg : string)
| EvEnable (r : restorable) (o : outcome)
| EvRestore (r : restorable) (o : outcome)
| EvDownload (a : download_args) (got : option string)
| EvRun (cmd : list string) (print_output : kwarg bool) (output : string) (ret_code : Z)
| EvRemoveOrphanFolders.

Definition trace : Type := list event.

(** The host and the collaborators imported from the rest of the package
    ([system_info], [repo], [utils]), whose code is not part of this module:
    they are parameters.  Each collaborator answers from the history of
    effects so far, so two calls with the same arguments may answer
    differently.  [download_pkg] gives the path of the artifact or [None],
    and [run_subprocess] the output and the exit status; neither raises.
    The calls of [enable()] and [restore()] do not reach back into the
    controller that is running them. *)
Record Host : Type := mkHost {
  enable_outcome : trace -> restorable -> outcome;
  restore_outcome : trace -> restorable -> outcome;
  (* os.path.isdir *)
  isdir : trace -> string -> bool;
  (* system_info *)
  eus_system : bool;
  system_id : string;
  has_internet_access : bool;
  (* repo.get_hardcoded_repofiles_dir() *)
  get_hardcoded_repofiles_dir : option string;
  (* utils *)
  BACKUP_DIR : string;
  download_pkg : trace -> download_args -> option string;
  run_subprocess : trace -> list string -> kwarg bool -> string * Z;
  format_sequence_as_message : list string -> string;
  (* str() of a list of str *)
  str_of_list : list string -> string
}.

(** ** BackupController *)

(** [l.pop()]: the last item and the list without it; [None] stands for the
    [IndexError] of an empty list. *)
Definition list_pop {A : Type} (l : list A) : option (A * list A) :=
  match rev l with
  | [] => None
  | x :: before => Some (x, rev before)
  end.

Section Controller.

Variable h : Host.

(** [r == self.partition], [r is self.partition]: the sentinel is a bare
    [object()], equal to itself only. *)
Definition is_partition (e : entry) : bool :=
  match e with
  | Partition => true
  | Change _ => false
  end.

(** [except (Exception, SystemExit)] *)
Definition caught_by_pop_all (e : foreign_exc) : bool :=
  match fe_kind e with
  | DerivesException | IsSystemExit => true
  | OtherBaseException => false
  end.

(** [restorable.enable()] *)
Definition call_enable (r : restorable) (t : trace) : outcome * trace :=
  let o := enable_outcome h t r in (o, t ++ [EvEnable r o]).

(** [restorable.restore()] *)
Definition call_restore (r : restorable) (t : trace) : outcome * trace :=
  let o := restore_outcome h t r in (o, t ++ [EvRestore r o]).

Definition push (x : pyobject) (self : BackupController) (t : trace)
  : result unit * BackupController * trace :=
  match x with
  | PartitionSentinel =>
      (Return tt, mkBackupController (_restorables self ++ [Partition]), t)
  | NotRestorable text =>
      (Raise (TypeError ("`" ++ text ++ "` is not a RestorableChange object")),
       self, t)
  | Restorable r =>
      match call_enable r t with
      | (Returned, t1) =>
          (Return tt, mkBackupController (_restorables self ++ [Change r]), t1)
      | (Raised e, t1) => (Raise (Foreign e), self, t1)
      end
  end.

(** [pop] takes the last item off [_restorables] and calls itself again when
    that item is the partition.  [pop_from] runs on the journal read from its
    end ([stack], newest entry first) and returns what is left of it;
    [pop_equation] below states the recursion of the source on [list_pop].
    The depth of the recursion is not bounded here as the interpreter
    bounds it. *)
Fixpoint pop_from (stack : list entry) (t : trace)
  : result restorable * list entry * trace :=
  match stack with
  | [] => (Raise (IndexError "No backups to restore"), [], t)
  | Partition :: below => pop_from below t
  | Change r :: below =>
      match call_restore r t with
      | (Returned, t1) => (Return r, below, t1)
      | (Raised e, t1) => (Raise (Foreign e), below, t1)
      end
  end.

Definition pop (self : BackupController) (t : trace)
  : result restorable * BackupController * trace :=
  let '(res, remaining, t') := pop_from (rev (_restorables self)) t in
  (res, mkBackupController (rev remaining), t').

Definition warning_rolling_back (r : restorable) (e : foreign_exc) : string :=
  "Error while rolling back a " ++ rclass r ++ ": " ++ fe_str e.

(** The [while True] loop of [pop_all], on the journal read from its end. *)
Fixpoint pop_all_loop (_honor_partitions : bool) (stack : list entry)
    (processed_restorables : list restorable) (t : trace)
  : result (list restorable) * list entry * trace :=
  match stack with
  | [] => (Return processed_restorables, [], t)
  | Partition :: below =>
      if _honor_partitions then (Return [], below, t)
      else pop_all_loop _honor_partitions below processed_restorables t
  | Change r :: below =>
      match call_restore r t with
      | (Returned, t1) =>
          pop_all_loop _honor_partitions below (processed_restorables ++ [r]) t1
      | (Raised e, t1) =>
          if caught_by_pop_all e then
            pop_all_loop _honor_partitions below (processed_restorables ++ [r])
              (t1 ++ [EvLog Warning (warning_rolling_back r e)])
          else (Raise (Foreign e), below, t1)
      end
  end.

(** The loop started on a journal, with what it has processed so far. *)
Definition pop_all_from (_honor_partitions : bool) (j : list entry)
    (processed_restorables : list restorable) (t : trace)
  : result (list restorable) * BackupController * trace :=
  let '(res, remaining, t') :=
    pop_all_loop _honor_partitions (rev j) processed_restorables t in
  (res, mkBackupController (rev remaining), t').

Definition pop_all (_honor_partitions : bool) (self : BackupController) (t : trace)
  : result (list restorable) * BackupController * trace :=
  if forallb is_partition (_restorables self) then
    (Raise (IndexError "No backups to restore"), self, t)
  else pop_all_from _honor_partitions (_restorables self) [] t.

Definition pop_to_partition (self : BackupController) (t : trace)
  : result unit * BackupController * trace :=
  match pop_all true self t with
  | (Return _, self', t') => (Return tt, self', t')
  | (Raise e, self', t') => (Raise e, self', t')
  end.

End Controller.

(** ** Package identifiers and paths *)

(** [\d] on the code points below 256: the ASCII digits. *)
Definition is_digit (c : ascii) : bool :=
  let n := nat_of_ascii c in ((48 <=? n)%nat && (n <=? 57)%nat)%bool.

(** What is left after a greedy [\d*]. *)
Fixpoint drop_digits (s : string) : string :=
  match s with
  | String c s' => if is_digit c then drop_digits s' else s
  | EmptyString => s
  end.

(** What a greedy [.*] takes: [.] matches every character but the newline. *)
Fixpoint line_prefix (s : string) : string :=
  match s with
  | EmptyString => EmptyString
  | String c s' =>
      if Ascii.eqb c "010" then EmptyString else String c (line_prefix s')
  end.

(** [re.search] of the source's pattern (start of the string, one or more
    digits, a colon, and a group that takes any run of characters): [None]
    when there is no match, else [group(1)].  Without [re.MULTILINE] the
    caret is the start of the string only.
    After the greedy digits the next character is not a digit, so giving
    digits back cannot produce a match that the greedy attempt missed. *)
Definition epoch_match (s : string) : option string :=
  match s with
  | String c s' =>
      if is_digit c then
        match drop_digits s' with
        | String ":" tail => Some (line_prefix tail)
        | _ => None
        end
      else None
  | EmptyString => None
  end.

Definition remove_epoch_from_yum_nevra_notation (package_nevra : string) : string :=
  match epoch_match package_nevra with
  | Some nvra => nvra
  | None => package_nevra
  end.

(** [s.rfind(c)] as a split: the text before and after the last [c]. *)
Fixpoint rsplit (c : ascii) (s : string) : option (string * string) :=
  match s with
  | EmptyString => None
  | String a s' =>
      match rsplit c s' with
      | Some (pre, post) => Some (String a pre, post)
      | None => if Ascii.eqb a c then Some (EmptyString, s') else None
      end
  end.

(** [os.path.basename] *)
Definition basename (p : string) : string :=
  match rsplit "/" p with
  | Some (_, post) => post
  | None => p
  end.

Fixpoint all_dots (s : string) : bool :=
  match s with
  | EmptyString => true
  | String c s' => Ascii.eqb c "." && all_dots s'
  end.

(** [os.path.splitext(b)[0]] for a [b] without a slash: the extension starts
    at the last dot, unless only dots come before it. *)
Definition splitext_root (b : string) : string :=
  match rsplit "." b with
  | Some (pre, _) => if all_dots pre then b else pre
  | None => b
  end.

(** [str.isspace] on the code points below 256. *)
Definition is_space (c : ascii) : bool :=
  let n := nat_of_ascii c in
  (((9 <=? n)%nat && (n <=? 13)%nat) || ((28 <=? n)%nat && (n <=? 32)%nat)
   || (n =? 133)%nat || (n =? 160)%nat)%bool.

Fixpoint lstrip (s : string) : string :=
  match s with
  | String c s' => if is_space c then lstrip s' else s
  | EmptyString => s
  end.

Fixpoint rstrip (s : string) : string :=
  match s with
  | EmptyString => EmptyString
  | String c s' =>
      match rstrip s' with
      | EmptyString => if is_space c then EmptyString else String c EmptyString
      | kept => String c kept
      end
  end.

(** [str.strip()] *)
Definition strip (s : string) : string := rstrip (lstrip s).

(** ** RestorablePackage, ChangedRPMPackagesController and remove_pkgs *)

Section Packages.

Variable h : Host.

(** Truth value of a [str]-or-[None]. *)
Definition truthy (s : option string) : bool :=
  match s with
  | Some (String _ _) => true
  | _ => false
  end.

Definition text_of (s : option string) : string :=
  match s with
  | Some v => v
  | None => "None"
  end.

Definition backing_up_message (pkgname : string) : string :=
  "Backing up " ++ pkgname ++ ".".

Definition backing_up (pkgname : string) : event :=
  EvLog Info (backing_up_message pkgname).

(** [RestorablePackage.backup] *)
Definition backup (reposdir : option string) (set_releasever : bool)
    (custom_releasever varsdir : option string)
    (self : RestorablePackage) (t : trace) : RestorablePackage * trace :=
  let t0 := t ++ [backing_up (name self)] in
  if isdir h t0 (BACKUP_DIR h) then
    let reposdir :=
      if eus_system h && String.eqb (system_id h) "centos"
      then get_hardcoded_repofiles_dir h else reposdir in
    if negb (has_internet_access h) then
      let t1 :=
        if truthy reposdir then
          t0 ++ [EvLog Debug ("Not using repository files stored in "
                              ++ text_of reposdir
                              ++ " due to the absence of internet access.")]
        else t0 in
      let a := mkDownloadArgs (name self) (BACKUP_DIR h) set_releasever
                 Omitted custom_releasever varsdir in
      let got := download_pkg h t1 a in
      (mkRestorablePackage (name self) got, t1 ++ [EvDownload a got])
    else
      let t1 :=
        if truthy reposdir then
          t0 ++ [EvLog Debug ("Using repository files stored in "
                              ++ text_of reposdir ++ ".")]
        else t0 in
      let a := mkDownloadArgs (name self) (BACKUP_DIR h) set_releasever
                 (Passed reposdir) custom_releasever varsdir in
      let got := download_pkg h t1 a in
      (mkRestorablePackage (name self) got, t1 ++ [EvDownload a got])
  else
    (self, t0 ++ [EvLog Warning ("Can't access " ++ BACKUP_DIR h)]).

Definition track_installed_pkg (pkg : string)
    (self : ChangedRPMPackagesController) : ChangedRPMPackagesController :=
  mkChangedRPMPackagesController (installed_pkgs self ++ [pkg]) (removed_pkgs self).

Definition track_installed_pkgs (pkgs : list string)
    (self : ChangedRPMPackagesController) : ChangedRPMPackagesController :=
  mkChangedRPMPackagesController (installed_pkgs self ++ pkgs) (removed_pkgs self).

Definition backup_and_track_removed_pkg (pkg : string) (reposdir : option string)
    (set_releasever : bool) (custom_releasever varsdir : option string)
    (self : ChangedRPMPackagesController) (t : trace)
  : ChangedRPMPackagesController * trace :=
  let '(restorable_pkg, t') :=
    backup reposdir set_releasever custom_releasever varsdir
      (mkRestorablePackage pkg None) t in
  (mkChangedRPMPackagesController (installed_pkgs self)
     (removed_pkgs self ++ [restorable_pkg]), t').

(** The first [for] loop of [remove_pkgs]. *)
Fixpoint backup_each (pkgs : list string) (reposdir : option string)
    (set_releasever : bool) (custom_releasever varsdir : option string)
    (c : ChangedRPMPackagesController) (t : trace)
  : ChangedRPMPackagesController * trace :=
  match pkgs with
  | [] => (c, t)
  | nevra :: pkgs' =>
      let '(c1, t1) :=
        backup_and_track_removed_pkg nevra reposdir set_releasever
          custom_releasever varsdir c t in
      backup_each pkgs' reposdir set_releasever custom_releasever varsdir c1 t1
  end.

Definition rpm_erase (nvra : string) : list string :=
  ["rpm"; "-e"; "--nodeps"; nvra].

(** The second [for] loop of [remove_pkgs]. *)
Fixpoint remove_each (pkgs : list string)
    (pkgs_failed_to_remove pkgs_removed : list string) (t : trace)
  : list string * list string * trace :=
  match pkgs with
  | [] => (pkgs_failed_to_remove, pkgs_removed, t)
  | nevra :: pkgs' =>
      let nvra := remove_epoch_from_yum_nevra_notation nevra in
      let t1 := t ++ [EvLog Info ("Removing package: " ++ nvra)] in
      let '(output, ret_code) := run_subprocess h t1 (rpm_erase nvra) Omitted in
      let t2 := t1 ++ [EvRun (rpm_erase nvra) Omitted output ret_code] in
      if negb (ret_code =? 0)%Z then
        remove_each pkgs' (pkgs_failed_to_remove ++ [nevra]) pkgs_removed t2
      else
        remove_each pkgs' pkgs_failed_to_remove (pkgs_removed ++ [nevra]) t2
  end.

(** [remove_pkgs]; [c] is the module's [changed_pkgs_control].  The result
    is [None] where the source returns without a value. *)
Definition remove_pkgs (pkgs_to_remove : list string) (backup critical : bool)
    (reposdir : option string) (set_releasever : bool)
    (custom_releasever varsdir : option string)
    (c : ChangedRPMPackagesController) (t : trace)
  : result (option (list string)) * ChangedRPMPackagesController * trace :=
  match pkgs_to_remove with
  | [] => (Return None, c, t ++ [EvLog Info "No package to remove"])
  | _ :: _ =>
      let '(c1, t1) :=
        if backup then
          backup_each pkgs_to_remove reposdir set_releasever custom_releasever
            varsdir c t
        else (c, t) in
      let '(pkgs_failed_to_remove, pkgs_removed, t2) :=
        remove_each pkgs_to_remove [] [] t1 in
      match pkgs_failed_to_remove with
      | [] => (Return (Some pkgs_removed), c1, t2)
      | _ :: _ =>
          let pkgs_as_str := format_sequence_as_message h pkgs_failed_to_remove in
          if critical then
            (Raise (CriticalError "FAILED_TO_REMOVE_PACKAGES"
                      "Couldn't remove packages."
                      "While attempting to roll back changes, we encountered an unexpected failure while attempting to remove one or more of the packages we installed earlier."
                      ("Couldn't remove " ++ pkgs_as_str ++ ".")),
             c1,
             t2 ++ [EvLog CriticalNoExit
                      ("Error: Couldn't remove " ++ pkgs_as_str ++ ".")])
          else
            (Return (Some pkgs_removed), c1,
             t2 ++ [EvLog Warning ("Couldn't remove " ++ pkgs_as_str ++ ".")])
      end
  end.

(** [self._remove_installed_pkgs()]; [self] is [changed_pkgs_control], the
    only instance the module creates. *)
Definition _remove_installed_pkgs (self : ChangedRPMPackagesController) (t : trace)
  : result unit * ChangedRPMPackagesController * trace :=
  let t0 := t ++ [EvLog Task "Rollback: Remove installed packages"] in
  match remove_pkgs (installed_pkgs self) false false None false None None self t0 with
  | (Return _, self', t') => (Return tt, self', t')
  | (Raise e, self', t') => (Raise e, self', t')
  end.

(** [%d] *)
Definition format_d (z : Z) : string := NilZero.string_of_int (Z.to_int z).

Definition nvra_of_path (p : string) : string := splitext_root (basename p).

Definition _install_local_rpms (pkgs_to_install : list string)
    (replace critical : bool)
    (self : ChangedRPMPackagesController) (t : trace)
  : result bool * ChangedRPMPackagesController * trace :=
  match pkgs_to_install with
  | [] => (Return false, self, t ++ [EvLog Info "No package to install."])
  | _ :: _ =>
      let cmd_param :=
        if replace then ["rpm"; "-i"; "--replacepkgs"] else ["rpm"; "-i"] in
      let t0 :=
        t ++ [EvLog Info "Installing packages:"]
          ++ map (fun pkg => EvLog Info (String "009"%char pkg)) pkgs_to_install in
      let cmd := cmd_param ++ pkgs_to_install in
      let '(output, ret_code) := run_subprocess h t0 cmd (Passed false) in
      let t1 := t0 ++ [EvRun cmd (Passed false) output ret_code] in
      if negb (ret_code =? 0)%Z then
        let pkgs_as_str := format_sequence_as_message h pkgs_to_install in
        let t2 := t1 ++ [EvLog Debug (strip output)] in
        if critical then
          (Raise (CriticalError "FAILED_TO_INSTALL_PACKAGES"
                    "Couldn't install packages."
                    "While attempting to roll back changes, we encountered an unexpected failure while attempting to reinstall one or more packages that we removed as part of the conversion."
                    ("Couldn't install " ++ pkgs_as_str ++ " packages. Command: "
                     ++ str_of_list h cmd ++ " Output: " ++ output
                     ++ " Status: " ++ format_d ret_code)),
           self,
           t2 ++ [EvLog CriticalNoExit
                    ("Error: Couldn't install " ++ pkgs_as_str ++ " packages.")])
        else
          (Return false, self,
           t2 ++ [EvLog Warning ("Couldn't install " ++ pkgs_as_str ++ " packages.")])
      else
        (Return true,
         fold_left (fun c p => track_installed_pkg (nvra_of_path p) c)
           pkgs_to_install self,
         t1)
  end.

Definition no_backup_warning (restorable_pkg : RestorablePackage) : event :=
  EvLog Warning ("Couldn't find a backup for " ++ name restorable_pkg ++ " package.").

(** The [for] loop of [_install_removed_pkgs]. *)
Fixpoint collect_backups (pkgs : list RestorablePackage)
    (pkgs_to_install : list string) (t : trace) : list string * trace :=
  match pkgs with
  | [] => (pkgs_to_install, t)
  | restorable_pkg :: pkgs' =>
      match path restorable_pkg with
      | None => collect_backups pkgs' pkgs_to_install (t ++ [no_backup_warning restorable_pkg])
      | Some p => collect_backups pkgs' (pkgs_to_install ++ [p]) t
      end
  end.

Definition _install_removed_pkgs (self : ChangedRPMPackagesController) (t : trace)
  : result unit * ChangedRPMPackagesController * trace :=
  let t0 := t ++ [EvLog Task "Rollback: Install removed packages"] in
  let '(pkgs_to_install, t1) := collect_backups (removed_pkgs self) [] t0 in
  match _install_local_rpms pkgs_to_install true false self t1 with
  | (Return _, self', t') => (Return tt, self', t')
  | (Raise e, self', t') => (Raise e, self', t')
  end.

Definition restore_pkgs (self : ChangedRPMPackagesController) (t : trace)
  : result unit * ChangedRPMPackagesController * trace :=
  match _remove_installed_pkgs self t with
  | (Raise e, self1, t1) => (Raise e, self1, t1)
  | (Return _, self1, t1) =>
      _install_removed_pkgs self1 (t1 ++ [EvRemoveOrphanFolders])
  end.

End Packages.

(** ** Callers

    The scenarios the properties below speak of: a run of pushes, and a run of
    [pop()] calls whose results are collected whether they return or raise. *)

Section Callers.

Variable h : Host.

Definition fresh_controller : BackupController := mkBackupController [].

Fixpoint push_each (xs : list pyobject) (self : BackupController) (t : trace)
  : result unit * BackupController * trace :=
  match xs with
  | [] => (Return tt, self, t)
  | x :: xs' =>
      match push h x self t with
      | (Return _, self1, t1) => push_each xs' self1 t1
      | (Raise e, self1, t1) => (Raise e, self1, t1)
      end
  end.

Fixpoint pop_times (n : nat) (self : BackupController) (t : trace)
  : list (result restorable) * BackupController * trace :=
  match n with
  | O => ([], self, t)
  | S n' =>
      let '(res, self1, t1) := pop h self t in
      let '(more, self2, t2) := pop_times n' self1 t1 in
      (res :: more, self2, t2)
  end.

End Callers.

(** ** Reading a journal and a trace *)

(** The restorable changes of a journal, oldest first. *)
Fixpoint changes (j : list entry) : list restorable :=
  match j with
  | [] => []
  | Partition :: j' => changes j'
  | Change r :: j' => r :: changes j'
  end.

(** The objects [restore()] was called on, in the order of the calls. *)
Fixpoint restore_calls (t : trace) : list restorable :=
  match t with
  | [] => []
  | EvRestore r _ :: t' => r :: restore_calls t'
  | _ :: t' => restore_calls t'
  end.

(** The objects [enable()] was called on. *)
Fixpoint enable_calls (t : trace) : list restorable :=
  match t with
  | [] => []
  | EvEnable r _ :: t' => r :: enable_calls t'
  | _ :: t' => enable_calls t'
  end.

(** The calls of [restore()] that raised. *)
Fixpoint failed_restores (t : trace) : list (restorable * foreign_exc) :=
  match t with
  | [] => []
  | EvRestore r (Raised e) :: t' => (r, e) :: failed_restores t'
  | _ :: t' => failed_restores t'
  end.

(** The messages logged at a level. *)
Fixpoint logged (lvl : level) (t : trace) : list string :=
  match t with
  | [] => []
  | EvLog l msg :: t' =>
      match l, lvl with
      | Debug, Debug | Info, Info | Task, Task | Warning, Warning
      | CriticalNoExit, CriticalNoExit => msg :: logged lvl t'
      | _, _ => logged lvl t'
      end
  | _ :: t' => logged lvl t'
  end.

(** The commands handed to [run_subprocess]. *)
Fixpoint commands (t : trace) : list (list string) :=
  match t with
  | [] => []
  | EvRun cmd _ _ _ :: t' => cmd :: commands t'
  | _ :: t' => commands t'
  end.

(** The calls of [download_pkg]. *)
Fixpoint downloads (t : trace) : list download_args :=
  match t with
  | [] => []
  | EvDownload a _ :: t' => a :: downloads t'
  | _ :: t' => downloads t'
  end.

(** ** The vocabulary of the properties *)

(** The shape of the trace of an unwinding in which every failure is
    isolated: calls of [restore()], and right after each one that raised a
    caught exception, the warning that reports it. *)
Inductive isolated : trace -> Prop :=
| isolated_nil : isolated []
| isolated_returned (r : restorable) (d : trace) :
    isolated d -> isolated (EvRestore r Returned :: d)
| isolated_raised (r : restorable) (e : foreign_exc) (d : trace) :
    caught_by_pop_all e = true ->
    isolated d ->
    isolated (EvRestore r (Raised e) :: EvLog Warning (warning_rolling_back r e) :: d).

(** Every exception that [restore()] raises on an object of [rs] is one
    that [pop_all] catches. *)
Definition restores_caught (h : Host) (rs : list restorable) : Prop :=
  forall (t : trace) (r : restorable) (e : foreign_exc),
    In r rs -> restore_outcome h t r = Raised e -> caught_by_pop_all e = true.

(** A call of [enable()], of [restore()], that returned. *)
Definition enabled_ok (p : restorable) : event := EvEnable p Returned.
Definition restored_ok (p : restorable) : event := EvRestore p Returned.

(** Strings made of digits, and strings of one line. *)
Fixpoint all_digits (s : string) : bool :=
  match s with
  | EmptyString => true
  | String c s' => is_digit c && all_digits s'
  end.

Fixpoint no_newline (s : string) : bool :=
  match s with
  | EmptyString => true
  | String c s' => negb (Ascii.eqb c "010") && no_newline s'
  end.

(** The removal command of a package, as [remove_pkgs] builds it. *)
Definition erase_command (nevra : string) : list string :=
  rpm_erase (remove_epoch_from_yum_nevra_notation nevra).

(** The claim "the download uses the hardcoded repository files": every call
    of [download_pkg] made by the backup is given [reposdir], set to the
    directory of the hardcoded repository files. *)
Definition downloads_from_hardcoded_repofiles (h : Host) (reposdir : option string)
    (pkg : string) (t : trace) : Prop :=
  forall a : download_args,
    In a (downloads (snd (backup h reposdir false None None
                            (mkRestorablePackage pkg None) t))) ->
    dl_reposdir a = Passed (get_hardcoded_repofiles_dir h).

(** The backups at hand: the paths of the tracked packages that have one. *)
Fixpoint backup_paths (pkgs : list RestorablePackage) : list string :=
  match pkgs with
  | [] => []
  | p :: pkgs' =>
      match path p with
      | Some b => b :: backup_paths pkgs'
      | None => backup_paths pkgs'
      end
  end.

Definition install_command (paths : list string) : list string :=
  ["rpm"; "-i"; "--replacepkgs"] ++ paths.

(** The partitions that lie under the oldest change of a journal. *)
Fixpoint partitions_at_bottom (j : list entry) : list entry :=
  match j with
  | Partition :: j' => Partition :: partitions_at_bottom j'
  | _ => []
  end.

(** The exit statuses that [run_subprocess] gave, in the order of the calls. *)
Fixpoint exit_statuses (t : trace) : list Z :=
  match t with
  | [] => []
  | EvRun _ _ _ ret_code :: t' => ret_code :: exit_statuses t'
  | _ :: t' => exit_statuses t'
  end.

(** The packages of a list whose removal exited with 0, and the others. *)
Fixpoint removed_of (pkgs : list string) (statuses : list Z) : list string :=
  match pkgs, statuses with
  | nevra :: pkgs', ret_code :: statuses' =>
      if (ret_code =? 0)%Z then nevra :: removed_of pkgs' statuses'
      else removed_of pkgs' statuses'
  | _, _ => []
  end.

Fixpoint failed_of (pkgs : list string) (statuses : list Z) : list string :=
  match pkgs, statuses with
  | nevra :: pkgs', ret_code :: statuses' =>
      if (ret_code =? 0)%Z then failed_of pkgs' statuses'
      else nevra :: failed_of pkgs' statuses'
  | _, _ => []
  end.

(** The artifacts that [download_pkg] delivered. *)
Fixpoint downloaded (t : trace) : list string :=
  match t with
  | [] => []
  | EvDownload _ (Some p) :: t' => p :: downloaded t'
  | _ :: t' => downloaded t'
  end.

(** Whether a character occurs in a string. *)
Fixpoint occurs (c : ascii) (s : string) : bool :=
  match s with
  | EmptyString => false
  | String a s' => Ascii.eqb a c || occurs c s'
  end.

(** The trace of one backup of [pkg], and the path it leaves in the
    package.  Either the backup directory is not there: the announcement,
    the warning, and no path.  Or it is: the announcement, at most one debug
    note about the repository files, and one call of [download_pkg] for
    [pkg] into the backup directory, whose answer becomes the path. *)
Inductive backup_step (h : Host) (set_releasever : bool)
    (custom_releasever varsdir : option string) (pkg : string)
  : trace -> option string -> Prop :=
| backup_step_inaccessible :
    backup_step h set_releasever custom_releasever varsdir pkg
      [backing_up pkg; EvLog Warning ("Can't access " ++ BACKUP_DIR h)] None
| backup_step_download (notes : trace) (repos : kwarg (option string))
    (got : option string) :
    (notes = [] \/ exists msg : string, notes = [EvLog Debug msg]) ->
    backup_step h set_releasever custom_releasever varsdir pkg
      (backing_up pkg
         :: notes
         ++ [EvDownload
               (mkDownloadArgs pkg (BACKUP_DIR h) set_releasever repos
                  custom_releasever varsdir)
               got])
      got.

(** The trace of the backups of a list of packages, one after the other, and
    the packages tracked for them. *)
Inductive backup_steps (h : Host) (set_releasever : bool)
    (custom_releasever varsdir : option string)
  : list string -> trace -> list RestorablePackage -> Prop :=
| backup_steps_nil :
    backup_steps h set_releasever custom_releasever varsdir [] [] []
| backup_steps_cons (pkg : string) (pkgs : list string) (step d : trace)
    (got : option string) (tracked : list RestorablePackage) :
    backup_step h set_releasever custom_releasever varsdir pkg step got ->
    backup_steps h set_releasever custom_releasever varsdir pkgs d tracked ->
    backup_steps h set_releasever custom_releasever varsdir (pkg :: pkgs)
      (step ++ d) (mkRestorablePackage pkg got :: tracked).

(** ** Sample hosts and journals *)

Definition file_change : restorable := mkRestorable 1 "RestorableFile".
Definition key_change : restorable := mkRestorable 2 "RestorableRpmKey".
Definition cert_change : restorable := mkRestorable 3 "RestorablePEMCert".

Definition sample_journal : list entry :=
  [Change file_change; Partition; Change key_change; Change cert_change].

Definition rpm_failure : foreign_exc :=
  mkForeign "OSError" DerivesException "rpm: key not installed".

Definition logger_exit : foreign_exc :=
  mkForeign "SystemExit" IsSystemExit "Unable to remove the certificate".

(** A host on which everything works, with internet access, not EUS. *)
Definition calm_host : Host :=
  {| enable_outcome := fun _ _ => Returned;
     restore_outcome := fun _ _ => Returned;
     isdir := fun _ _ => true;
     eus_system := false;
     system_id := "centos";
     has_internet_access := true;
     get_hardcoded_repofiles_dir := Some "/usr/share/convert2rhel/repos/centos-8.4";
     BACKUP_DIR := "/usr/share/convert2rhel/backup";
     download_pkg := fun _ a =>
       Some ("/usr/share/convert2rhel/backup/" ++ dl_pkg a ++ ".rpm")%string;
     run_subprocess := fun _ _ _ => ("", 0%Z);
     format_sequence_as_message := String.concat ", ";
     str_of_list := String.concat " " |}.

(** The same host, where restoring the key and the certificate fails. *)
Definition flaky_host : Host :=
  {| enable_outcome := fun _ _ => Returned;
     restore_outcome := fun _ r =>
       match rid r with
       | 2 => Raised rpm_failure
       | 3 => Raised logger_exit
       | _ => Returned
       end;
     isdir := isdir calm_host;
     eus_system := false;
     system_id := "centos";
     has_internet_access := true;
     get_hardcoded_repofiles_dir := get_hardcoded_repofiles_dir calm_host;
     BACKUP_DIR := BACKUP_DIR calm_host;
     download_pkg := download_pkg calm_host;
     run_subprocess := run_subprocess calm_host;
     format_sequence_as_message := String.concat ", ";
     str_of_list := String.concat " " |}.

(** The calm host without internet access. *)
Definition offline_host : Host :=
  {| enable_outcome := enable_outcome calm_host;
     restore_outcome := restore_outcome calm_host;
     isdir := isdir calm_host;
     eus_system := false;
     system_id := "centos";
     has_internet_access := false;
     get_hardcoded_repofiles_dir := get_hardcoded_repofiles_dir calm_host;
     BACKUP_DIR := BACKUP_DIR calm_host;
     download_pkg := download_pkg calm_host;
     run_subprocess := run_subprocess calm_host;
     format_sequence_as_message := String.concat ", ";
     str_of_list := String.concat " " |}.

(** An EUS host that is not CentOS, with internet access. *)
Definition oracle_eus_host : Host :=
  {| enable_outcome := enable_outcome calm_host;
     restore_outcome := restore_outcome calm_host;
     isdir := isdir calm_host;
     eus_system := true;
     system_id := "oracle";
     has_internet_access := true;
     get_hardcoded_repofiles_dir := get_hardcoded_repofiles_dir calm_host;
     BACKUP_DIR := BACKUP_DIR calm_host;
     download_pkg := download_pkg calm_host;
     run_subprocess := run_subprocess calm_host;
     format_sequence_as_message := String.concat ", ";
     str_of_list := String.concat " " |}.

(** A host whose backup directory cannot be reached, and on which [rpm]
    fails to erase [kernel-uek]. *)
Definition no_backup_dir_host : Host :=
  {| enable_outcome := enable_outcome calm_host;
     restore_outcome := restore_outcome calm_host;
     isdir := fun _ _ => false;
     eus_system := false;
     system_id := "centos";
     has_internet_access := true;
     get_hardcoded_repofiles_dir := get_hardcoded_repofiles_dir calm_host;
     BACKUP_DIR := BACKUP_DIR calm_host;
     download_pkg := download_pkg calm_host;
     run_subprocess := fun _ cmd _ =>
       match cmd with
       | ["rpm"; "-e"; "--nodeps"; "kernel-uek"] =>
           ("error: package kernel-uek is not installed", 1%Z)
       | _ => ("", 0%Z)
       end;
     format_sequence_as_message := String.concat ", ";
     str_of_list := String.concat " " |}.

Definition sample_packages : ChangedRPMPackagesController :=
  {| installed_pkgs := ["kernel-uek"; "subscription-manager"];
     removed_pkgs :=
       [mkRestorablePackage "centos-release" None;
        mkRestorablePackage "centos-logos"
          (Some "/usr/share/convert2rhel/backup/centos-logos-80.5-2.el8.noarch.rpm")] |}.

Definition keyboard_interrupt : foreign_exc :=
  mkForeign "KeyboardInterrupt" OtherBaseException "".

(** The calm host, where restoring the key is interrupted from the
    keyboard. *)
Definition interrupted_host : Host :=
  {| enable_outcome := fun _ _ => Returned;
     restore_outcome := fun _ r =>
       match rid r with
       | 2 => Raised keyboard_interrupt
       | _ => Returned
       end;
     isdir := isdir calm_host;
     eus_system := false;
     system_id := "centos";
     has_internet_access := true;
     get_hardcoded_repofiles_dir := get_hardcoded_repofiles_dir calm_host;
     BACKUP_DIR := BACKUP_DIR calm_host;
     download_pkg := download_pkg calm_host;
     run_subprocess := run_subprocess calm_host;
     format_sequence_as_message := String.concat ", ";
     str_of_list := String.concat " " |}.

(** The calm host, on which no [rpm] command succeeds. *)
Definition broken_rpm_host : Host :=
  {| enable_outcome := enable_outcome calm_host;
     restore_outcome := restore_outcome calm_host;
     isdir := isdir calm_host;
     eus_system := false;
     system_id := "centos";
     has_internet_access := true;
     get_hardcoded_repofiles_dir := get_hardcoded_repofiles_dir calm_host;
     BACKUP_DIR := BACKUP_DIR calm_host;
     download_pkg := download_pkg calm_host;
     run_subprocess := fun _ _ _ => ("error: rpmdb open failed", 1%Z);
     format_sequence_as_message := String.concat ", ";
     str_of_list := String.concat " " |}.

(** * Properties *)

(** ** Journals and traces *)

Lemma changes_app (a b : list entry) : changes (a ++ b) = changes a ++ changes b.
Proof.
  induction a as [|[|r] a IH]; simpl; [reflexivity|exact IH|now rewrite IH].
Qed.

Lemma changes_rev (j : list entry) : changes (rev j) = rev (changes j).
Proof.
  induction j as [|[|r] j IH]; simpl; try reflexivity;
    rewrite changes_app, IH; simpl.
  - apply app_nil_r.
  - reflexivity.
Qed.

Lemma changes_map_Change (rs : list restorable) : changes (map Change rs) = rs.
Proof. induction rs as [|r rs IH]; simpl; [reflexivity|now rewrite IH]. Qed.

Lemma changes_nil_iff (j : list entry) :
  changes j = [] <-> forallb is_partition j = true.
Proof.
  induction j as [|[|r] j IH]; simpl.
  - tauto.
  - exact IH.
  - split; discriminate.
Qed.

Lemma restore_calls_app (a b : trace) :
  restore_calls (a ++ b) = restore_calls a ++ restore_calls b.
Proof.
  induction a as [|e a IH]; simpl; [reflexivity|].
  destruct e; simpl; rewrite IH; reflexivity.
Qed.

Lemma failed_restores_app (a b : trace) :
  failed_restores (a ++ b) = failed_restores a ++ failed_restores b.
Proof.
  induction a as [|e a IH]; simpl; [reflexivity|].
  destruct e as [| |r [|x]| | |]; simpl; rewrite IH; reflexivity.
Qed.

Lemma logged_app (lvl : level) (a b : trace) :
  logged lvl (a ++ b) = logged lvl a ++ logged lvl b.
Proof.
  induction a as [|e a IH]; simpl; [reflexivity|].
  destruct e as [l m| | | | |]; simpl; try exact IH.
  destruct l, lvl; simpl; rewrite IH; reflexivity.
Qed.

Lemma isolated_app (a b : trace) : isolated a -> isolated b -> isolated (a ++ b).
Proof.
  intros Ha Hb. induction Ha; simpl; [assumption| |]; constructor; assumption.
Qed.


(** ** The recursion of the source *)

Lemma list_pop_nil {A : Type} : list_pop (@nil A) = None.
Proof. reflexivity. Qed.

Lemma list_pop_last {A : Type} (l : list A) (x : A) :
  list_pop (l ++ [x]) = Some (x, l).
Proof.
  unfold list_pop. rewrite rev_app_distr. simpl. now rewrite rev_involutive.
Qed.

(** [pop] as the source has it: take the last item off; on the partition,
    call [pop] again; else restore the item and return it. *)
Lemma pop_equation (h : Host) (self : BackupController) (t : trace) :
  pop h self t
  = match list_pop (_restorables self) with
    | None => (Raise (IndexError "No backups to restore"), mkBackupController [], t)
    | Some (Partition, j) => pop h (mkBackupController j) t
    | Some (Change r, j) =>
        match call_restore h r t with
        | (Returned, t1) => (Return r, mkBackupController j, t1)
        | (Raised e, t1) => (Raise (Foreign e), mkBackupController j, t1)
        end
    end.
Proof.
  unfold pop, list_pop.
  destruct (rev (_restorables self)) as [|[|r] before]; simpl.
  - reflexivity.
  - now rewrite rev_involutive.
  - unfold call_restore. destruct (restore_outcome h t r); reflexivity.
Qed.

(** One turn of the [while True] loop of [pop_all], as the source has it. *)
Lemma pop_all_from_equation (h : Host) (honor : bool) (j : list entry)
    (processed : list restorable) (t : trace) :
  pop_all_from h honor j processed t
  = match list_pop j with
    | None => (Return processed, mkBackupController [], t)
    | Some (Partition, j') =>
        if honor then (Return [], mkBackupController j', t)
        else pop_all_from h honor j' processed t
    | Some (Change r, j') =>
        match call_restore h r t with
        | (Returned, t1) => pop_all_from h honor j' (processed ++ [r]) t1
        | (Raised e, t1) =>
            if caught_by_pop_all e then
              pop_all_from h honor j' (processed ++ [r])
                (t1 ++ [EvLog Warning (warning_rolling_back r e)])
            else (Raise (Foreign e), mkBackupController j', t1)
        end
    end.
Proof.
  unfold pop_all_from, list_pop.
  destruct (rev j) as [|[|r] before]; simpl.
  - reflexivity.
  - destruct honor; [reflexivity|now rewrite rev_involutive].
  - unfold call_restore. destruct (restore_outcome h t r) as [|e].
    + now rewrite rev_involutive.
    + destruct (caught_by_pop_all e); [now rewrite rev_involutive|reflexivity].
Qed.


(** ** pop_all *)

Section PopAll.

Variable h : Host.

Lemma restores_caught_app (a b : list restorable) :
  restores_caught h (a ++ b) -> restores_caught h a /\ restores_caught h b.
Proof.
  intros H; split; intros t r e Hin; apply H; apply in_or_app; auto.
Qed.

(** The loop, ignoring partitions, runs to the bottom of the journal. *)
Lemma pop_all_loop_drains (stack : list entry) :
  restores_caught h (changes stack) ->
  forall (processed : list restorable) (t : trace),
  exists d : trace,
    pop_all_loop h false stack processed t
    = (Return (processed ++ changes stack), [], t ++ d)
    /\ restore_calls d = changes stack
    /\ isolated d.
Proof.
  induction stack as [|[|r] below IH]; intros Hc processed t; simpl.
  - exists []. rewrite !app_nil_r. repeat split; constructor.
  - apply IH, Hc.
  - assert (Hbelow : restores_caught h (changes below)).
    { intros t' r' e' Hin. apply Hc. simpl; auto. }
    unfold call_restore.
    destruct (restore_outcome h t r) as [|e] eqn:Ho.
    + destruct (IH Hbelow (processed ++ [r]) (t ++ [EvRestore r Returned]))
        as (d & Hrun & Hcalls & Hiso).
      exists (EvRestore r Returned :: d).
      rewrite Hrun, <- !app_assoc. simpl.
      repeat split; [now rewrite Hcalls|now constructor].
    + assert (Hk : caught_by_pop_all e = true).
      { apply (Hc t r e); simpl; auto. }
      rewrite Hk.
      destruct (IH Hbelow (processed ++ [r])
                  ((t ++ [EvRestore r (Raised e)])
                     ++ [EvLog Warning (warning_rolling_back r e)]))
        as (d & Hrun & Hcalls & Hiso).
      exists (EvRestore r (Raised e) :: EvLog Warning (warning_rolling_back r e) :: d).
      rewrite Hrun, <- !app_assoc. simpl.
      repeat split; [now rewrite Hcalls|now constructor].
Qed.

(** [pop_all()] on a journal with something to restore. *)
Lemma pop_all_drains (self : BackupController) (t : trace) :
  1 <= List.length (changes (_restorables self)) ->
  restores_caught h (changes (_restorables self)) ->
  exists d : trace,
    pop_all h false self t
    = (Return (rev (changes (_restorables self))), fresh_controller, t ++ d)
    /\ restore_calls d = rev (changes (_restorables self))
    /\ isolated d.
Proof.
  intros Hm Hc. unfold pop_all, pop_all_from.
  destruct (forallb is_partition (_restorables self)) eqn:Hall.
  { apply changes_nil_iff in Hall. rewrite Hall in Hm. simpl in Hm. lia. }
  assert (Hc' : restores_caught h (changes (rev (_restorables self)))).
  { rewrite changes_rev. intros t' r e Hin. apply Hc. now apply in_rev. }
  destruct (pop_all_loop_drains (rev (_restorables self)) Hc' [] t)
    as (d & Hrun & Hcalls & Hiso).
  exists d. rewrite Hrun. simpl. rewrite changes_rev in *.
  repeat split; assumption.
Qed.

End PopAll.

(** C1.  On a journal that holds at least one restorable change, with
    partitions anywhere, [pop_all()] (partitions not honoured) calls
    [restore()] on each change once, newest first; it leaves the journal
    empty and returns the changes in the order it restored them.  The
    exceptions of [restore()] are those the handler catches. *)
Theorem pop_all_restores_each_once_in_reverse
    (h : Host) (self : BackupController) (t : trace) :
  1 <= List.length (changes (_restorables self)) ->
  restores_caught h (changes (_restorables self)) ->
  exists (returned : list restorable) (d : trace),
    pop_all h false self t = (Return returned, mkBackupController [], t ++ d)
    /\ restore_calls d = rev (changes (_restorables self))
    /\ returned = restore_calls d.
Proof.
  intros Hm Hc.
  destruct (pop_all_drains h self t Hm Hc) as (d & Hrun & Hcalls & _).
  exists (rev (changes (_restorables self))), d.
  repeat split; [exact Hrun|exact Hcalls|now rewrite Hcalls].
Qed.

Lemma flaky_restores_caught :
  restores_caught flaky_host (changes sample_journal).
Proof.
  intros t r e Hin Ho. simpl in Hin.
  destruct Hin as [<-|[<-|[<-|[]]]]; simpl in Ho; inversion Ho; reflexivity.
Qed.

Lemma pop_all_restores_each_once_in_reverse_witness :
  1 <= List.length (changes (_restorables (mkBackupController sample_journal)))
  /\ restores_caught flaky_host
       (changes (_restorables (mkBackupController sample_journal)))
  /\ exists (returned : list restorable) (d : trace),
       pop_all flaky_host false (mkBackupController sample_journal) []
       = (Return returned, mkBackupController [], [] ++ d)
       /\ restore_calls d = [cert_change; key_change; file_change]
       /\ returned = restore_calls d.
Proof.
  split; [simpl; lia|].
  split; [exact flaky_restores_caught|].
  apply (pop_all_restores_each_once_in_reverse flaky_host
           (mkBackupController sample_journal) []).
  - simpl; lia.
  - exact flaky_restores_caught.
Defined.



(** The run of the witness above, evaluated: two failures, two warnings,
    three entries restored and returned. *)
Example pop_all_flaky_run :
  pop_all flaky_host false (mkBackupController sample_journal) []
  = (Return [cert_change; key_change; file_change],
     mkBackupController [],
     [EvRestore cert_change (Raised logger_exit);
      EvLog Warning
        "Error while rolling back a RestorablePEMCert: Unable to remove the certificate";
      EvRestore key_change (Raised rpm_failure);
      EvLog Warning
        "Error while rolling back a RestorableRpmKey: rpm: key not installed";
      EvRestore file_change Returned]).
Proof. reflexivity. Qed.

(** An exception outside [Exception] and [SystemExit] is not caught: it
    leaves [pop_all] at once, and the entries below stay in the journal. *)
Lemma pop_all_loop_propagates (h : Host) (honor : bool) (r : restorable)
    (below : list entry) (processed : list restorable) (t : trace)
    (e : foreign_exc) :
  restore_outcome h t r = Raised e ->
  caught_by_pop_all e = false ->
  pop_all_loop h honor (Change r :: below) processed t
  = (Raise (Foreign e), below, t ++ [EvRestore r (Raised e)]).
Proof.
  intros Ho Hk. simpl. unfold call_restore. rewrite Ho, Hk. reflexivity.
Qed.

(** ** pop_to_partition *)

Section PopToPartition.

Variable h : Host.

(** Honouring partitions, the loop restores what lies above the first
    partition, takes the partition off and stops there. *)
Lemma pop_all_loop_stops_at_partition (above : list restorable) (rest : list entry) :
  restores_caught h above ->
  forall (processed : list restorable) (t : trace),
  exists d : trace,
    pop_all_loop h true (map Change above ++ Partition :: rest) processed t
    = (Return [], rest, t ++ d)
    /\ restore_calls d = above
    /\ isolated d.
Proof.
  induction above as [|r above IH]; intros Hc processed t; simpl.
  - exists []. rewrite app_nil_r. repeat split; constructor.
  - assert (Habove : restores_caught h above).
    { intros t' r' e' Hin. apply Hc. simpl; auto. }
    unfold call_restore.
    destruct (restore_outcome h t r) as [|e] eqn:Ho.
    + destruct (IH Habove (processed ++ [r]) (t ++ [EvRestore r Returned]))
        as (d & Hrun & Hcalls & Hiso).
      exists (EvRestore r Returned :: d).
      rewrite Hrun, <- app_assoc. simpl.
      repeat split; [now rewrite Hcalls|now constructor].
    + assert (Hk : caught_by_pop_all e = true).
      { apply (Hc t r e); simpl; auto. }
      rewrite Hk.
      destruct (IH Habove (processed ++ [r])
                  ((t ++ [EvRestore r (Raised e)])
                     ++ [EvLog Warning (warning_rolling_back r e)]))
        as (d & Hrun & Hcalls & Hiso).
      exists (EvRestore r (Raised e) :: EvLog Warning (warning_rolling_back r e) :: d).
      rewrite Hrun, <- !app_assoc. simpl.
      repeat split; [now rewrite Hcalls|now constructor].
Qed.

Lemma forallb_is_partition_with_change (a b : list entry) (r : restorable) :
  forallb is_partition (a ++ Change r :: b) = false.
Proof.
  rewrite forallb_app. simpl. apply andb_false_r.
Qed.

Lemma pop_to_partition_stops (below : list entry) (above : list restorable)
    (t : trace) :
  1 <= List.length (changes below) ->
  restores_caught h above ->
  exists d : trace,
    pop_to_partition h
      (mkBackupController (below ++ Partition :: map Change above)) t
    = (Return tt, mkBackupController below, t ++ d)
    /\ restore_calls d = rev above
    /\ isolated d.
Proof.
  intros Hm Hc. unfold pop_to_partition, pop_all, pop_all_from. simpl.
  assert (Hall : forallb is_partition (below ++ Partition :: map Change above) = false).
  { rewrite forallb_app.
    destruct (forallb is_partition below) eqn:Hb; [|reflexivity].
    apply changes_nil_iff in Hb. rewrite Hb in Hm. simpl in Hm. lia. }
  rewrite Hall.
  assert (Hrev : rev (below ++ Partition :: map Change above)
                 = map Change (rev above) ++ Partition :: rev below).
  { rewrite rev_app_distr. simpl. rewrite <- app_assoc, map_rev. reflexivity. }
  rewrite Hrev.
  assert (Hc' : restores_caught h (rev above)).
  { intros t' r e Hin. apply Hc. now apply in_rev. }
  destruct (pop_all_loop_stops_at_partition (rev above) (rev below) Hc' [] t)
    as (d & Hrun & Hcalls & Hiso).
  exists d. rewrite Hrun, rev_involutive. repeat split; assumption.
Qed.

End PopToPartition.

(** C3.  With one partition in the journal and changes on both sides of it,
    [pop_to_partition()] restores the changes above the partition, newest
    first, returns nothing and leaves the entries below in the journal;
    [pop_all()] then restores those, newest first.  Together the two calls
    restore every change once, in reverse push order. *)
Theorem pop_to_partition_then_pop_all
    (h : Host) (below above : list restorable) (t : trace) :
  below <> [] ->
  above <> [] ->
  restores_caught h (below ++ above) ->
  exists d1 d2 : trace,
    pop_to_partition h
      (mkBackupController (map Change below ++ Partition :: map Change above)) t
    = (Return tt, mkBackupController (map Change below), t ++ d1)
    /\ restore_calls d1 = rev above
    /\ pop_all h false (mkBackupController (map Change below)) (t ++ d1)
       = (Return (rev below), mkBackupController [], (t ++ d1) ++ d2)
    /\ restore_calls d2 = rev below
    /\ restore_calls (d1 ++ d2)
       = rev (changes (map Change below ++ Partition :: map Change above)).
Proof.
  intros Hbelow _ Hc.
  destruct (restores_caught_app h below above Hc) as [Hcb Hca].
  assert (Hm : 1 <= List.length (changes (map Change below))).
  { rewrite changes_map_Change. destruct below; [congruence|simpl; lia]. }
  destruct (pop_to_partition_stops h (map Change below) above t Hm Hca)
    as (d1 & Hrun1 & Hcalls1 & _).
  assert (Hcb' : restores_caught h
                   (changes (_restorables (mkBackupController (map Change below))))).
  { simpl. now rewrite changes_map_Change. }
  destruct (pop_all_drains h (mkBackupController (map Change below)) (t ++ d1) Hm Hcb')
    as (d2 & Hrun2 & Hcalls2 & _).
  simpl in Hrun2, Hcalls2. rewrite changes_map_Change in Hrun2, Hcalls2.
  exists d1, d2. repeat split; try assumption.
  rewrite restore_calls_app, Hcalls1, Hcalls2, changes_app. simpl.
  rewrite !changes_map_Change, rev_app_distr. reflexivity.
Qed.

Lemma pop_to_partition_then_pop_all_witness :
  [file_change] <> []
  /\ [key_change; cert_change] <> []
  /\ restores_caught flaky_host ([file_change] ++ [key_change; cert_change])
  /\ exists d1 d2 : trace,
       pop_to_partition flaky_host (mkBackupController sample_journal) []
       = (Return tt, mkBackupController [Change file_change], [] ++ d1)
       /\ restore_calls d1 = [cert_change; key_change]
       /\ pop_all flaky_host false (mkBackupController [Change file_change])
            ([] ++ d1)
          = (Return [file_change], mkBackupController [], ([] ++ d1) ++ d2)
       /\ restore_calls d2 = [file_change]
       /\ restore_calls (d1 ++ d2) = [cert_change; key_change; file_change].
Proof.
  split; [discriminate|].
  split; [discriminate|].
  split; [exact flaky_restores_caught|].
  apply (pop_to_partition_then_pop_all flaky_host
           [file_change] [key_change; cert_change] []).
  - discriminate.
  - discriminate.
  - exact flaky_restores_caught.
Defined.

(** ** The empty journal *)

Lemma pop_from_partitions (h : Host) (stack : list entry) (t : trace) :
  forallb is_partition stack = true ->
  pop_from h stack t = (Raise (IndexError "No backups to restore"), [], t).
Proof.
  induction stack as [|[|r] stack IH]; simpl; intros H;
    [reflexivity|now apply IH|discriminate].
Qed.

(** C5.  On a journal that is empty or holds only partitions, [pop()] and
    [pop_all()] both raise [IndexError("No backups to restore")] and call
    [restore()] on nothing.  [pop_all()] leaves the journal as it was;
    [pop()] has taken every partition off it. *)
Theorem pop_and_pop_all_on_nothing_to_restore
    (h : Host) (self : BackupController) (honor : bool) (t : trace) :
  forallb is_partition (_restorables self) = true ->
  pop h self t
  = (Raise (IndexError "No backups to restore"), mkBackupController [], t)
  /\ pop_all h honor self t
     = (Raise (IndexError "No backups to restore"), self, t)
  /\ (_restorables self <> [] ->
      snd (fst (pop h self t)) <> snd (fst (pop_all h honor self t))).
Proof.
  intros Hall.
  assert (Hpop : pop h self t
                 = (Raise (IndexError "No backups to restore"),
                    mkBackupController [], t)).
  { unfold pop. rewrite pop_from_partitions; [reflexivity|].
    rewrite forallb_forall in *. intros x Hx. apply Hall. now apply in_rev. }
  assert (Hall' : pop_all h honor self t
                  = (Raise (IndexError "No backups to restore"), self, t)).
  { unfold pop_all. now rewrite Hall. }
  repeat split; [exact Hpop|exact Hall'|].
  rewrite Hpop, Hall'. simpl. intros Hne Heq. apply Hne.
  rewrite <- Heq. reflexivity.
Qed.

Lemma pop_and_pop_all_on_nothing_to_restore_witness :
  forallb is_partition (_restorables (mkBackupController [Partition; Partition])) = true
  /\ pop calm_host (mkBackupController [Partition; Partition]) []
     = (Raise (IndexError "No backups to restore"), mkBackupController [], [])
  /\ pop_all calm_host false (mkBackupController [Partition; Partition]) []
     = (Raise (IndexError "No backups to restore"),
        mkBackupController [Partition; Partition], [])
  /\ (_restorables (mkBackupController [Partition; Partition]) <> [] ->
      snd (fst (pop calm_host (mkBackupController [Partition; Partition]) []))
      <> snd (fst (pop_all calm_host false
                     (mkBackupController [Partition; Partition]) []))).
Proof.
  split; [reflexivity|].
  apply (pop_and_pop_all_on_nothing_to_restore calm_host
           (mkBackupController [Partition; Partition]) false []).
  reflexivity.
Defined.

(** ** push and pop *)

Section PushPop.

Variable h : Host.

(** [pop()] on a journal whose newest entry is a change. *)
Lemma pop_newest_change (j : list entry) (p : restorable) (t : trace) :
  pop h (mkBackupController (j ++ [Change p])) t
  = match restore_outcome h t p with
    | Returned =>
        (Return p, mkBackupController j, t ++ [EvRestore p Returned])
    | Raised e =>
        (Raise (Foreign e), mkBackupController j, t ++ [EvRestore p (Raised e)])
    end.
Proof.
  unfold pop. simpl. rewrite rev_app_distr. simpl. unfold call_restore.
  destruct (restore_outcome h t p); rewrite rev_involutive; reflexivity.
Qed.

(** [pop()] skips the partitions that lie on top of the journal. *)
Lemma pop_skips_partition (j : list entry) (t : trace) :
  pop h (mkBackupController (j ++ [Partition])) t = pop h (mkBackupController j) t.
Proof.
  unfold pop. simpl. rewrite rev_app_distr. reflexivity.
Qed.

(** Pushing changes whose [enable()] returns appends them in push order,
    after one call of [enable()] for each. *)
Lemma push_each_appends_in_order (ps : list restorable) :
  (forall t r, In r ps -> enable_outcome h t r = Returned) ->
  forall (self : BackupController) (t : trace),
    push_each h (map Restorable ps) self t
    = (Return tt, mkBackupController (_restorables self ++ map Change ps),
       t ++ map enabled_ok ps).
Proof.
  induction ps as [|p ps IH]; intros Hen self t; simpl.
  - rewrite !app_nil_r. destruct self; reflexivity.
  - unfold call_enable. rewrite (Hen t p) by (simpl; auto).
    rewrite IH by (intros; apply Hen; simpl; auto).
    simpl. rewrite <- !app_assoc. reflexivity.
Qed.

(** As many [pop()] calls as there are changes on top of the journal return
    them newest first, one call of [restore()] each. *)
Lemma pop_times_returns_in_reverse (back : list restorable) :
  (forall t r, In r back -> restore_outcome h t r = Returned) ->
  forall (j : list entry) (t : trace),
    pop_times h (List.length back) (mkBackupController (j ++ map Change back)) t
    = (map Return (rev back), mkBackupController j,
       t ++ map restored_ok (rev back)).
Proof.
  induction back as [|p back IH] using rev_ind; intros Hre j t.
  - simpl. rewrite !app_nil_r. reflexivity.
  - rewrite length_app, Nat.add_comm. simpl.
    rewrite map_app, app_assoc. simpl.
    rewrite pop_newest_change, (Hre t p) by (apply in_or_app; simpl; auto).
    rewrite IH by (intros; apply Hre, in_or_app; auto).
    rewrite rev_app_distr. simpl. rewrite <- app_assoc. reflexivity.
Qed.

End PushPop.

(** C4.  After pushing [p1 .. pn] (no partition) onto a fresh controller,
    [n] calls of [pop()] return [pn .. p1] in that order; the call that
    returns [p] is the one that calls [p.restore()], before it returns. *)
Theorem pops_return_pushes_in_reverse
    (h : Host) (ps : list restorable) (t0 : trace) :
  (forall t r, In r ps -> enable_outcome h t r = Returned) ->
  (forall t r, In r ps -> restore_outcome h t r = Returned) ->
  exists (pushed : BackupController) (t1 : trace),
    push_each h (map Restorable ps) fresh_controller t0 = (Return tt, pushed, t1)
    /\ _restorables pushed = map Change ps
    /\ pop_times h (List.length ps) pushed t1
       = (map Return (rev ps), fresh_controller, t1 ++ map restored_ok (rev ps))
    /\ (forall (front back : list restorable) (p : restorable),
           ps = front ++ p :: back ->
           exists (self : BackupController) (t : trace),
             pop_times h (List.length back) pushed t1
             = (map Return (rev back), self, t)
             /\ pop h self t
                = (Return p, mkBackupController (map Change front),
                   t ++ [EvRestore p Returned])).
Proof.
  intros Hen Hre.
  exists (mkBackupController (map Change ps)), (t0 ++ map enabled_ok ps).
  split; [now rewrite push_each_appends_in_order|].
  split; [reflexivity|]. split.
  - apply (pop_times_returns_in_reverse h ps Hre []).
  - intros front back p Hps.
    exists (mkBackupController (map Change front ++ [Change p])),
      ((t0 ++ map enabled_ok ps) ++ map restored_ok (rev back)).
    split.
    + rewrite <- (pop_times_returns_in_reverse h back).
      * rewrite Hps, map_app. simpl. rewrite <- app_assoc. reflexivity.
      * intros t r Hin. apply Hre. rewrite Hps.
        apply in_or_app. simpl; auto.
    + rewrite pop_newest_change, Hre; [reflexivity|].
      rewrite Hps. apply in_or_app. simpl; auto.
Qed.

Lemma pops_return_pushes_in_reverse_witness :
  (forall t r, In r [file_change; key_change; cert_change] ->
               enable_outcome calm_host t r = Returned)
  /\ (forall t r, In r [file_change; key_change; cert_change] ->
                  restore_outcome calm_host t r = Returned)
  /\ exists (pushed : BackupController) (t1 : trace),
       push_each calm_host
         (map Restorable [file_change; key_change; cert_change])
         fresh_controller []
       = (Return tt, pushed, t1)
       /\ _restorables pushed = map Change [file_change; key_change; cert_change]
       /\ pop_times calm_host 3 pushed t1
          = (map Return [cert_change; key_change; file_change], fresh_controller,
             t1 ++ map restored_ok [cert_change; key_change; file_change])
       /\ (forall (front back : list restorable) (p : restorable),
              [file_change; key_change; cert_change] = front ++ p :: back ->
              exists (self : BackupController) (t : trace),
                pop_times calm_host (List.length back) pushed t1
                = (map Return (rev back), self, t)
                /\ pop calm_host self t
                   = (Return p, mkBackupController (map Change front),
                      t ++ [EvRestore p Returned])).
Proof.
  split; [reflexivity|].
  split; [reflexivity|].
  apply (pops_return_pushes_in_reverse calm_host
           [file_change; key_change; cert_change] []); reflexivity.
Defined.

(** C6.  [push] of an object that is neither the partition nor a
    [RestorableChange] raises [TypeError] with no call of [enable()] and the
    journal as it was; [push] of the partition appends it, with no call of
    [enable()]; [push] of a [RestorableChange] calls its [enable()] once and
    then appends it at the end of the journal (when [enable()] raises, the
    exception leaves [push] and nothing is appended). *)
Theorem push_checks_enables_then_appends
    (h : Host) (self : BackupController) (t : trace) :
  (forall text : string,
      push h (NotRestorable text) self t
      = (Raise (TypeError ("`" ++ text ++ "` is not a RestorableChange object")),
         self, t))
  /\ push h PartitionSentinel self t
     = (Return tt, mkBackupController (_restorables self ++ [Partition]), t)
  /\ (forall r : restorable,
        match enable_outcome h t r with
        | Returned =>
            push h (Restorable r) self t
            = (Return tt, mkBackupController (_restorables self ++ [Change r]),
               t ++ [EvEnable r Returned])
        | Raised e =>
            push h (Restorable r) self t
            = (Raise (Foreign e), self, t ++ [EvEnable r (Raised e)])
        end)
  /\ (forall x : pyobject,
        enable_calls (snd (push h x self t))
        = enable_calls t ++ match x with Restorable r => [r] | _ => [] end).
Proof.
  split; [reflexivity|].
  split; [reflexivity|]. split.
  - intros r. simpl. unfold call_enable.
    destruct (enable_outcome h t r); reflexivity.
  - intros [|r|text]; simpl; try (now rewrite app_nil_r).
    unfold call_enable. destruct (enable_outcome h t r) eqn:Ho; simpl;
      clear Ho; induction t as [|e' t IH]; simpl; try reflexivity;
      destruct e'; simpl; now rewrite IH.
Qed.

(** ** The epoch of a NEVRA *)

Lemma drop_digits_app (ds rest : string) :
  all_digits ds = true ->
  drop_digits (ds ++ String ":" rest) = String ":" rest.
Proof.
  induction ds as [|c ds IH]; simpl; intros H; [reflexivity|].
  apply andb_prop in H. destruct H as [Hc Hds]. rewrite Hc. now apply IH.
Qed.

Lemma drop_digits_split (s : string) :
  exists ds : string, all_digits ds = true /\ s = (ds ++ drop_digits s)%string.
Proof.
  induction s as [|c s (ds & Hds & Hs)]; simpl.
  - exists EmptyString. split; reflexivity.
  - destruct (is_digit c) eqn:Hc.
    + exists (String c ds). simpl. rewrite Hc, Hds. split; [reflexivity|].
      now rewrite <- Hs.
    + exists EmptyString. split; reflexivity.
Qed.

Lemma line_prefix_no_newline (s : string) :
  no_newline s = true -> line_prefix s = s.
Proof.
  induction s as [|c s IH]; simpl; intros H; [reflexivity|].
  apply andb_prop in H. destruct H as [Hc Hs].
  destruct (Ascii.eqb c "010"); [discriminate|]. now rewrite IH.
Qed.

(** On the yum notation the function returns what the group captured: the
    text after the colon, up to the end of its first line. *)
Lemma remove_epoch_of_yum_notation (ds rest : string) :
  ds <> EmptyString ->
  all_digits ds = true ->
  remove_epoch_from_yum_nevra_notation (ds ++ String ":" rest) = line_prefix rest.
Proof.
  intros Hne Hds. destruct ds as [|c ds]; [congruence|].
  simpl in Hds. apply andb_prop in Hds. destruct Hds as [Hc Hds].
  unfold remove_epoch_from_yum_nevra_notation, epoch_match. simpl.
  rewrite Hc, (drop_digits_app ds rest Hds). reflexivity.
Qed.

Lemma epoch_match_yum_notation (s g : string) :
  epoch_match s = Some g ->
  exists ds rest : string,
    ds <> EmptyString /\ all_digits ds = true /\ s = (ds ++ String ":" rest)%string.
Proof.
  unfold epoch_match. destruct s as [|c s]; [discriminate|].
  destruct (is_digit c) eqn:Hc; [|discriminate].
  destruct (drop_digits_split s) as (ds & Hds & Hs).
  destruct (drop_digits s) as [|c' tail]; [discriminate|].
  destruct (Ascii.eqb_spec c' ":") as [->|Hneq].
  - intros _. exists (String c ds), tail. simpl. rewrite Hc, Hds.
    repeat split; [discriminate|now rewrite <- Hs].
  - intros H. exfalso.
    destruct c' as [[] [] [] [] [] [] [] []]; try discriminate H.
    now apply Hneq.
Qed.

Lemma remove_epoch_without_prefix (s : string) :
  (forall ds rest : string,
      ds <> EmptyString -> all_digits ds = true ->
      s <> (ds ++ String ":" rest)%string) ->
  remove_epoch_from_yum_nevra_notation s = s.
Proof.
  intros H. unfold remove_epoch_from_yum_nevra_notation.
  destruct (epoch_match s) as [g|] eqn:Hm; [|reflexivity].
  destruct (epoch_match_yum_notation s g Hm) as (ds & rest & Hne & Hds & Hs).
  exfalso. exact (H ds rest Hne Hds Hs).
Qed.

(** A string that does not start with a digit is returned as it is. *)
Lemma remove_epoch_not_starting_with_digit (c : ascii) (s : string) :
  is_digit c = false ->
  remove_epoch_from_yum_nevra_notation (String c s) = String c s.
Proof.
  intros Hc. unfold remove_epoch_from_yum_nevra_notation, epoch_match.
  now rewrite Hc.
Qed.

(** The group stops at a newline: the rest of the string is dropped with
    the epoch. *)
Example remove_epoch_stops_at_newline :
  remove_epoch_from_yum_nevra_notation
    (String "7" (String ":" (String "a" (String "010" (String "b" EmptyString)))))
  = "a".
Proof. reflexivity. Qed.

(** ** remove_pkgs *)

Lemma commands_app (a b : trace) : commands (a ++ b) = commands a ++ commands b.
Proof.
  induction a as [|e a IH]; simpl; [reflexivity|].
  destruct e; simpl; rewrite IH; reflexivity.
Qed.

Lemma downloads_app (a b : trace) : downloads (a ++ b) = downloads a ++ downloads b.
Proof.
  induction a as [|e a IH]; simpl; [reflexivity|].
  destruct e; simpl; rewrite IH; reflexivity.
Qed.

Section RemovePkgs.

Variable h : Host.

(** One backup: the message that announces it, no subprocess, and the
    package keeps its name. *)
Lemma backup_effects (reposdir : option string) (set_releasever : bool)
    (custom_releasever varsdir : option string)
    (self : RestorablePackage) (t : trace) :
  exists (self' : RestorablePackage) (d : trace),
    backup h reposdir set_releasever custom_releasever varsdir self t
    = (self', t ++ d)
    /\ name self' = name self
    /\ commands d = []
    /\ logged Info d = [backing_up_message (name self)].
Proof.
  unfold backup.
  destruct (isdir h _ _).
  - destruct (negb (has_internet_access h));
      match goal with |- context [truthy ?r] => destruct (truthy r) end;
      eexists; eexists; rewrite <- ?app_assoc;
      (split; [reflexivity|]); repeat split.
  - eexists; eexists; rewrite <- ?app_assoc;
      (split; [reflexivity|]); repeat split.
Qed.

(** The backup loop: one announced backup per package, in order, each
    tracked in [removed_pkgs]; no subprocess is run. *)
Lemma backup_each_effects (pkgs : list string) (reposdir : option string)
    (set_releasever : bool) (custom_releasever varsdir : option string) :
  forall (c : ChangedRPMPackagesController) (t : trace),
  exists (c' : ChangedRPMPackagesController) (d : trace),
    backup_each h pkgs reposdir set_releasever custom_releasever varsdir c t
    = (c', t ++ d)
    /\ installed_pkgs c' = installed_pkgs c
    /\ map name (removed_pkgs c') = map name (removed_pkgs c) ++ pkgs
    /\ commands d = []
    /\ logged Info d = map backing_up_message pkgs.
Proof.
  induction pkgs as [|nevra pkgs IH]; intros c t; simpl.
  - exists c, []. rewrite !app_nil_r. repeat split.
  - unfold backup_and_track_removed_pkg.
    destruct (backup_effects reposdir set_releasever custom_releasever varsdir
                (mkRestorablePackage nevra None) t)
      as (p & d1 & Hrun1 & Hname & Hcmd1 & Hlog1).
    rewrite Hrun1.
    destruct (IH (mkChangedRPMPackagesController (installed_pkgs c)
                    (removed_pkgs c ++ [p])) (t ++ d1))
      as (c' & d2 & Hrun2 & Hinst & Hrem & Hcmd2 & Hlog2).
    exists c', (d1 ++ d2). rewrite Hrun2, app_assoc.
    split; [reflexivity|]. split; [exact Hinst|]. split.
    + rewrite Hrem. simpl. rewrite map_app, <- app_assoc. simpl.
      now rewrite Hname.
    + rewrite commands_app, logged_app, Hcmd1, Hcmd2, Hlog1, Hlog2.
      split; reflexivity.
Qed.

Lemma removing_is_not_backing_up (nvra pkgname : string) :
  EvLog Info ("Removing package: " ++ nvra) <> backing_up pkgname.
Proof. unfold backing_up. simpl. intros H. inversion H. Qed.

(** The removal loop: one [rpm -e --nodeps] per package, in order, whatever
    the exit statuses; no backup, no download. *)
Lemma remove_each_effects (pkgs : list string) :
  forall (failed removed : list string) (t : trace),
  exists (failed' removed' : list string) (d : trace),
    remove_each h pkgs failed removed t = (failed', removed', t ++ d)
    /\ commands d = map erase_command pkgs
    /\ downloads d = []
    /\ logged Warning d = []
    /\ (forall pkgname : string, ~ In (backing_up pkgname) d).
Proof.
  induction pkgs as [|nevra pkgs IH]; intros failed removed t;
    cbn [remove_each].
  - exists failed, removed, []. rewrite app_nil_r. repeat split. intros p [].
  - set (nvra := remove_epoch_from_yum_nevra_notation nevra).
    destruct (run_subprocess h _ (rpm_erase nvra) Omitted) as [output ret_code].
    set (t2 := (t ++ [EvLog Info ("Removing package: " ++ nvra)])
                 ++ [EvRun (rpm_erase nvra) Omitted output ret_code]).
    assert (Hstep : forall failed1 removed1,
               exists failed' removed' d,
                 remove_each h pkgs failed1 removed1 t2 = (failed', removed', t ++ d)
                 /\ commands d = map erase_command (nevra :: pkgs)
                 /\ downloads d = []
                 /\ logged Warning d = []
                 /\ (forall pkgname, ~ In (backing_up pkgname) d)).
    { intros failed1 removed1.
      destruct (IH failed1 removed1 t2)
        as (failed' & removed' & d & Hrun & Hcmd & Hdl & Hw & Hnb).
      exists failed', removed',
        (EvLog Info ("Removing package: " ++ nvra)
           :: EvRun (rpm_erase nvra) Omitted output ret_code :: d).
      rewrite Hrun. unfold t2. rewrite <- !app_assoc. simpl.
      split; [reflexivity|]. split; [now rewrite Hcmd|].
      split; [exact Hdl|]. split; [exact Hw|].
      intros p [H|[H|H]].
      - exact (removing_is_not_backing_up nvra p H).
      - discriminate H.
      - exact (Hnb p H). }
    destruct (negb (ret_code =? 0)%Z); apply Hstep.
Qed.

(** When every removal exits with status 0, every package is reported
    removed and none failed. *)
Lemma remove_each_all_succeed (pkgs : list string) :
  (forall (t : trace) (nevra : string),
      In nevra pkgs -> snd (run_subprocess h t (erase_command nevra) Omitted) = 0%Z) ->
  forall (failed removed : list string) (t : trace),
  exists d : trace,
    remove_each h pkgs failed removed t = (failed, removed ++ pkgs, t ++ d).
Proof.
  induction pkgs as [|nevra pkgs IH]; intros Hok failed removed t;
    cbn [remove_each].
  - exists []. now rewrite !app_nil_r.
  - pose proof (Hok (t ++ [EvLog Info ("Removing package: "
                                        ++ remove_epoch_from_yum_nevra_notation nevra)])
                  nevra (or_introl eq_refl)) as H0.
    unfold erase_command in H0.
    destruct (run_subprocess h _ _ Omitted) as [output ret_code].
    simpl in H0. subst ret_code. cbn [Z.eqb negb].
    destruct (IH (fun t' n Hin => Hok t' n (or_intror Hin)) failed
                (removed ++ [nevra])
                ((t ++ [EvLog Info ("Removing package: "
                                     ++ remove_epoch_from_yum_nevra_notation nevra)])
                   ++ [EvRun (rpm_erase (remove_epoch_from_yum_nevra_notation nevra))
                         Omitted output 0%Z]))
      as (d & Hrun).
    eexists. rewrite Hrun, <- !app_assoc. simpl. reflexivity.
Qed.

End RemovePkgs.

(** One backup of a package that has none yet, step by step. *)
Lemma backup_is_a_backup_step (h : Host) (reposdir : option string)
    (set_releasever : bool) (custom_releasever varsdir : option string)
    (pkg : string) (t : trace) :
  exists (got : option string) (step : trace),
    backup h reposdir set_releasever custom_releasever varsdir
      (mkRestorablePackage pkg None) t
    = (mkRestorablePackage pkg got, t ++ step)
    /\ backup_step h set_releasever custom_releasever varsdir pkg step got
    /\ commands step = []
    /\ logged Info step = [backing_up_message pkg]
    /\ (isdir h (t ++ [backing_up pkg]) (BACKUP_DIR h) = true ->
        map dl_pkg (downloads step) = [pkg]).
Proof.
  unfold backup. cbn [name].
  destruct (isdir h _ _).
  - destruct (negb (has_internet_access h));
      match goal with |- context [truthy ?r] => destruct (truthy r) end;
      eexists; eexists; rewrite <- ?app_assoc;
      (split; [reflexivity|]); cbn [app];
      (split; [|repeat split]);
      first [ apply (backup_step_download h set_releasever custom_releasever
                       varsdir pkg []); left; reflexivity
            | apply (backup_step_download h set_releasever custom_releasever
                       varsdir pkg [_]); right; eexists; reflexivity ].
  - eexists; eexists; rewrite <- ?app_assoc.
    split; [reflexivity|]. split; [constructor|].
    repeat split. discriminate.
Qed.

(** The backup loop, step by step: one backup per package, in order, each
    tracked after the packages tracked before. *)
Lemma backup_each_steps (h : Host) (pkgs : list string) (reposdir : option string)
    (set_releasever : bool) (custom_releasever varsdir : option string) :
  forall (c : ChangedRPMPackagesController) (t : trace),
  exists (tracked : list RestorablePackage) (d : trace),
    backup_each h pkgs reposdir set_releasever custom_releasever varsdir c t
    = (mkChangedRPMPackagesController (installed_pkgs c)
         (removed_pkgs c ++ tracked), t ++ d)
    /\ backup_steps h set_releasever custom_releasever varsdir pkgs d tracked
    /\ commands d = []
    /\ logged Info d = map backing_up_message pkgs
    /\ ((forall t' : trace, isdir h t' (BACKUP_DIR h) = true) ->
        map dl_pkg (downloads d) = pkgs).
Proof.
  induction pkgs as [|nevra pkgs IH]; intros c t; simpl.
  - exists [], []. rewrite !app_nil_r. destruct c.
    repeat split. constructor.
  - unfold backup_and_track_removed_pkg.
    destruct (backup_is_a_backup_step h reposdir set_releasever custom_releasever
                varsdir nevra t)
      as (got & step & Hrun1 & Hstep & Hcmd1 & Hlog1 & Hdl1).
    rewrite Hrun1.
    destruct (IH (mkChangedRPMPackagesController (installed_pkgs c)
                    (removed_pkgs c ++ [mkRestorablePackage nevra got]))
                (t ++ step))
      as (tracked & d & Hrun2 & Hsteps & Hcmd2 & Hlog2 & Hdl2).
    exists (mkRestorablePackage nevra got :: tracked), (step ++ d).
    rewrite Hrun2. cbn [installed_pkgs removed_pkgs].
    rewrite <- !app_assoc. split; [reflexivity|].
    split; [now constructor|].
    rewrite commands_app, logged_app, Hcmd1, Hcmd2, Hlog1, Hlog2.
    repeat split.
    intros Hdir. rewrite downloads_app, map_app, Hdl1, Hdl2 by auto.
    reflexivity.
Qed.

Lemma backup_steps_names (h : Host) (set_releasever : bool)
    (custom_releasever varsdir : option string) (pkgs : list string)
    (d : trace) (tracked : list RestorablePackage) :
  backup_steps h set_releasever custom_releasever varsdir pkgs d tracked ->
  map name tracked = pkgs.
Proof.
  induction 1 as [|pkg pkgs step d got tracked _ _ IH]; simpl;
    [reflexivity|now rewrite IH].
Qed.

(** C7.  With [backup=True] and a list that is not empty, [remove_pkgs]
    first backs up every package of the list, in order, and only then runs
    the removals.  Each backup is a whole one: it is announced, it downloads
    the package into the backup directory (or warns that the directory
    cannot be reached), and the package is tracked with the path that the
    download gave.  No [rpm -e] is run before the last backup is done, and
    no backup or download happens once the removals have started. *)
Theorem remove_pkgs_backs_up_all_before_removing_any
    (h : Host) (pkgs_to_remove : list string) (critical : bool)
    (reposdir : option string) (set_releasever : bool)
    (custom_releasever varsdir : option string)
    (c : ChangedRPMPackagesController) (t : trace) :
  pkgs_to_remove <> [] ->
  exists (res : result (option (list string)))
         (tracked : list RestorablePackage) (d_backup d_remove : trace),
    remove_pkgs h pkgs_to_remove true critical reposdir set_releasever
      custom_releasever varsdir c t
    = (res,
       mkChangedRPMPackagesController (installed_pkgs c)
         (removed_pkgs c ++ tracked),
       t ++ d_backup ++ d_remove)
    /\ backup_steps h set_releasever custom_releasever varsdir pkgs_to_remove
         d_backup tracked
    /\ map name tracked = pkgs_to_remove
    /\ logged Info d_backup = map backing_up_message pkgs_to_remove
    /\ commands d_backup = []
    /\ ((forall t' : trace, isdir h t' (BACKUP_DIR h) = true) ->
        map dl_pkg (downloads d_backup) = pkgs_to_remove)
    /\ commands d_remove = map erase_command pkgs_to_remove
    /\ downloads d_remove = []
    /\ (forall pkgname : string, ~ In (backing_up pkgname) d_remove).
Proof.
  intros Hne. unfold remove_pkgs.
  destruct pkgs_to_remove as [|nevra pkgs]; [congruence|].
  set (l := nevra :: pkgs).
  destruct (backup_each_steps h l reposdir set_releasever custom_releasever
              varsdir c t) as (tracked & d1 & Hrun1 & Hsteps & Hcmd1 & Hlog1 & Hdl1).
  rewrite Hrun1.
  pose proof (backup_steps_names _ _ _ _ _ _ _ Hsteps) as Hnames.
  destruct (remove_each_effects h l [] [] (t ++ d1))
    as (failed & removed & d2 & Hrun2 & Hcmd2 & Hdl2 & _ & Hnb2).
  rewrite Hrun2.
  destruct failed as [|f failed]; [|destruct critical].
  - exists (Return (Some removed)), tracked, d1, d2.
    rewrite app_assoc. repeat split; assumption.
  - eexists; exists tracked, d1; eexists.
    rewrite <- !app_assoc. split; [reflexivity|].
    repeat split; try assumption.
    + rewrite commands_app, Hcmd2. apply app_nil_r.
    + rewrite downloads_app, Hdl2. reflexivity.
    + intros p Hin. apply in_app_or in Hin. destruct Hin as [Hin|[Hin|[]]].
      * exact (Hnb2 p Hin).
      * discriminate Hin.
  - eexists; exists tracked, d1; eexists.
    rewrite <- !app_assoc. split; [reflexivity|].
    repeat split; try assumption.
    + rewrite commands_app, Hcmd2. apply app_nil_r.
    + rewrite downloads_app, Hdl2. reflexivity.
    + intros p Hin. apply in_app_or in Hin. destruct Hin as [Hin|[Hin|[]]].
      * exact (Hnb2 p Hin).
      * discriminate Hin.
Qed.

Lemma remove_pkgs_backs_up_all_before_removing_any_witness :
  ["centos-release"; "7:foo-1.0-1.el7.x86_64"] <> []
  /\ (forall t' : trace, isdir calm_host t' (BACKUP_DIR calm_host) = true)
  /\ exists (res : result (option (list string)))
            (tracked : list RestorablePackage) (d_backup d_remove : trace),
       remove_pkgs calm_host ["centos-release"; "7:foo-1.0-1.el7.x86_64"]
         true true None false None None sample_packages []
       = (res,
          mkChangedRPMPackagesController (installed_pkgs sample_packages)
            (removed_pkgs sample_packages ++ tracked),
          [] ++ d_backup ++ d_remove)
       /\ backup_steps calm_host false None None
            ["centos-release"; "7:foo-1.0-1.el7.x86_64"] d_backup tracked
       /\ map name tracked = ["centos-release"; "7:foo-1.0-1.el7.x86_64"]
       /\ map dl_pkg (downloads d_backup)
          = ["centos-release"; "7:foo-1.0-1.el7.x86_64"]
       /\ commands d_backup = []
       /\ commands d_remove
          = [["rpm"; "-e"; "--nodeps"; "centos-release"];
             ["rpm"; "-e"; "--nodeps"; "foo-1.0-1.el7.x86_64"]]
       /\ downloads d_remove = []
       /\ (forall pkgname : string, ~ In (backing_up pkgname) d_remove).
Proof.
  split; [discriminate|]. split; [reflexivity|].
  destruct (remove_pkgs_backs_up_all_before_removing_any calm_host
              ["centos-release"; "7:foo-1.0-1.el7.x86_64"] true None false None
              None sample_packages [])
    as (res & tracked & d_backup & d_remove & Hrun & Hsteps & Hnames & _
        & Hcmd1 & Hdl1 & Hcmd2 & Hdl2 & Hnb).
  - discriminate.
  - exists res, tracked, d_backup, d_remove.
    split; [exact Hrun|]. split; [exact Hsteps|]. split; [exact Hnames|].
    split; [apply Hdl1; reflexivity|]. split; [exact Hcmd1|].
    split; [exact Hcmd2|]. split; [exact Hdl2|exact Hnb].
Defined.

(** The run of the witness above, evaluated: two downloads into the backup
    directory, then two removals; the packages are tracked with the paths
    that the downloads gave. *)
Example remove_pkgs_calm_run :
  remove_pkgs calm_host ["centos-release"; "7:foo-1.0-1.el7.x86_64"]
    true true None false None None (mkChangedRPMPackagesController [] []) []
  = (Return (Some ["centos-release"; "7:foo-1.0-1.el7.x86_64"]),
     mkChangedRPMPackagesController []
       [mkRestorablePackage "centos-release"
          (Some "/usr/share/convert2rhel/backup/centos-release.rpm");
        mkRestorablePackage "7:foo-1.0-1.el7.x86_64"
          (Some "/usr/share/convert2rhel/backup/7:foo-1.0-1.el7.x86_64.rpm")],
     [backing_up "centos-release";
      EvDownload
        (mkDownloadArgs "centos-release" "/usr/share/convert2rhel/backup" false
           (Passed None) None None)
        (Some "/usr/share/convert2rhel/backup/centos-release.rpm");
      backing_up "7:foo-1.0-1.el7.x86_64";
      EvDownload
        (mkDownloadArgs "7:foo-1.0-1.el7.x86_64" "/usr/share/convert2rhel/backup"
           false (Passed None) None None)
        (Some "/usr/share/convert2rhel/backup/7:foo-1.0-1.el7.x86_64.rpm");
      EvLog Info "Removing package: centos-release";
      EvRun ["rpm"; "-e"; "--nodeps"; "centos-release"] Omitted "" 0%Z;
      EvLog Info "Removing package: foo-1.0-1.el7.x86_64";
      EvRun ["rpm"; "-e"; "--nodeps"; "foo-1.0-1.el7.x86_64"] Omitted "" 0%Z]).
Proof. reflexivity. Qed.

Example erase_command_of_yum_nevra :
  erase_command "7:foo-1.0-1.el7.x86_64"
  = ["rpm"; "-e"; "--nodeps"; "foo-1.0-1.el7.x86_64"].
Proof. reflexivity. Qed.

(** C8.  [remove_pkgs(["7:foo-1.0-1.el7.x86_64"], critical=True)], when
    [rpm] succeeds, returns the list with the yum notation untouched, and
    [rpm] was given the name without the epoch.  In general
    [remove_epoch_from_yum_nevra_notation] takes a leading run of digits and
    its colon off a (one-line) identifier, and returns a string that has no
    such prefix as it is; the dnf notation is such a string. *)
Theorem remove_pkgs_strips_yum_epoch_for_rpm_only
    (h : Host) (backup : bool) (reposdir : option string) (set_releasever : bool)
    (custom_releasever varsdir : option string)
    (c : ChangedRPMPackagesController) (t : trace) :
  (forall t' : trace,
      snd (run_subprocess h t' ["rpm"; "-e"; "--nodeps"; "foo-1.0-1.el7.x86_64"]
             Omitted) = 0%Z) ->
  (exists (c' : ChangedRPMPackagesController) (d : trace),
      remove_pkgs h ["7:foo-1.0-1.el7.x86_64"] backup true reposdir
        set_releasever custom_releasever varsdir c t
      = (Return (Some ["7:foo-1.0-1.el7.x86_64"]), c', t ++ d)
      /\ commands d = [["rpm"; "-e"; "--nodeps"; "foo-1.0-1.el7.x86_64"]])
  /\ (forall ds rest : string,
         ds <> EmptyString -> all_digits ds = true -> no_newline rest = true ->
         remove_epoch_from_yum_nevra_notation (ds ++ String ":" rest) = rest)
  /\ (forall s : string,
         (forall ds rest : string,
             ds <> EmptyString -> all_digits ds = true ->
             s <> (ds ++ String ":" rest)%string) ->
         remove_epoch_from_yum_nevra_notation s = s)
  /\ remove_epoch_from_yum_nevra_notation
       "oraclelinux-release-8:8.2-1.0.8.el8.x86_64"
     = "oraclelinux-release-8:8.2-1.0.8.el8.x86_64".
Proof.
  intros Hok. split; [|split; [|split]].
  - set (l := ["7:foo-1.0-1.el7.x86_64"]).
    assert (Hok' : forall (t' : trace) (nevra : string),
               In nevra l ->
               snd (run_subprocess h t' (erase_command nevra) Omitted) = 0%Z).
    { intros t' nevra [<-|[]]. apply Hok. }
    assert (Hrm : forall t1 : trace,
               exists d : trace,
                 remove_each h l [] [] t1 = ([], l, t1 ++ d)
                 /\ commands d = map erase_command l).
    { intros t1.
      destruct (remove_each_all_succeed h l Hok' [] [] t1) as (d & Hrun).
      destruct (remove_each_effects h l [] [] t1)
        as (f' & r' & d' & Hrun' & Hcmd & _).
      rewrite Hrun in Hrun'. injection Hrun' as _ _ Hd.
      apply app_inv_head in Hd. subst d'. exists d. split; assumption. }
    unfold remove_pkgs. fold l. destruct backup.
    + destruct (backup_each_effects h l reposdir set_releasever custom_releasever
                  varsdir c t) as (c1 & d1 & Hrun1 & _ & _ & Hcmd1 & _).
      rewrite Hrun1. destruct (Hrm (t ++ d1)) as (d2 & Hrun2 & Hcmd2).
      rewrite Hrun2. exists c1, (d1 ++ d2). rewrite app_assoc.
      split; [reflexivity|]. rewrite commands_app, Hcmd1, Hcmd2. reflexivity.
    + destruct (Hrm t) as (d2 & Hrun2 & Hcmd2). rewrite Hrun2.
      exists c, d2. split; [reflexivity|exact Hcmd2].
  - intros ds rest Hne Hds Hnl.
    rewrite remove_epoch_of_yum_notation by assumption.
    now apply line_prefix_no_newline.
  - exact remove_epoch_without_prefix.
  - reflexivity.
Qed.

Lemma remove_pkgs_strips_yum_epoch_for_rpm_only_witness :
  (forall t' : trace,
      snd (run_subprocess calm_host t'
             ["rpm"; "-e"; "--nodeps"; "foo-1.0-1.el7.x86_64"] Omitted) = 0%Z)
  /\ (exists (c' : ChangedRPMPackagesController) (d : trace),
         remove_pkgs calm_host ["7:foo-1.0-1.el7.x86_64"] true true None
           false None None (mkChangedRPMPackagesController [] []) []
         = (Return (Some ["7:foo-1.0-1.el7.x86_64"]), c', [] ++ d)
         /\ commands d = [["rpm"; "-e"; "--nodeps"; "foo-1.0-1.el7.x86_64"]])
  /\ remove_epoch_from_yum_nevra_notation "7:foo-1.0-1.el7.x86_64"
     = "foo-1.0-1.el7.x86_64".
Proof.
  split; [reflexivity|].
  destruct (remove_pkgs_strips_yum_epoch_for_rpm_only calm_host true None false
              None None (mkChangedRPMPackagesController [] []) [])
    as (Hrun & Hstrip & _).
  - reflexivity.
  - split; [exact Hrun|].
    apply (Hstrip "7" "foo-1.0-1.el7.x86_64"); [discriminate|reflexivity|reflexivity].
Defined.

(** ** The repositories of a backup *)

(** C9, as stated, fails: a host without internet access (not EUS) backs a
    package up with no [reposdir] at all, neither the hardcoded one nor the
    caller's. *)
Lemma backup_without_internet_uses_no_reposdir :
  (has_internet_access offline_host = false \/ eus_system offline_host = true)
  /\ map dl_reposdir
       (downloads (snd (backup offline_host (Some "/etc/yum.repos.d") false None
                          None (mkRestorablePackage "centos-release" None) [])))
     = [Omitted]
  /\ ~ downloads_from_hardcoded_repofiles offline_host (Some "/etc/yum.repos.d")
         "centos-release" [].
Proof.
  split; [left; reflexivity|]. split; [reflexivity|].
  intros H.
  specialize (H _ (or_introl eq_refl)). discriminate H.
Qed.

(** An EUS host that is not CentOS downloads from the caller's repositories. *)
Example backup_on_eus_oracle_uses_caller_reposdir :
  eus_system oracle_eus_host = true
  /\ map dl_reposdir
       (downloads (snd (backup oracle_eus_host (Some "/etc/yum.repos.d") false
                          None None (mkRestorablePackage "oraclelinux-release" None) [])))
     = [Passed (Some "/etc/yum.repos.d")].
Proof. split; reflexivity. Qed.

(** C9, amended.  When the backup directory is there, the backup makes one
    call of [download_pkg] for the package, into the backup directory.  With
    internet access it passes [reposdir]: the hardcoded repository files on
    an EUS CentOS host, the caller's [reposdir] on every other host.  Without
    internet access it passes no [reposdir]. *)
Theorem backup_repository_choice
    (h : Host) (reposdir : option string) (set_releasever : bool)
    (custom_releasever varsdir : option string)
    (self : RestorablePackage) (t : trace) :
  isdir h (t ++ [backing_up (name self)]) (BACKUP_DIR h) = true ->
  exists (d : trace) (a : download_args) (got : option string),
    backup h reposdir set_releasever custom_releasever varsdir self t
    = (mkRestorablePackage (name self) got, t ++ d)
    /\ downloads d = [a]
    /\ In (EvDownload a got) d
    /\ dl_pkg a = name self
    /\ dl_dest a = BACKUP_DIR h
    /\ dl_reposdir a
       = if has_internet_access h then
           Passed (if eus_system h && (system_id h =? "centos")%string
                   then get_hardcoded_repofiles_dir h
                   else reposdir)
         else Omitted.
Proof.
  intros Hdir. unfold backup. rewrite Hdir.
  destruct (has_internet_access h); simpl;
    match goal with |- context [truthy ?r] => destruct (truthy r) end;
    eexists; eexists; eexists; rewrite <- ?app_assoc;
    (split; [reflexivity|]); simpl; repeat split; auto.
Qed.

Lemma backup_repository_choice_witness :
  isdir offline_host ([] ++ [backing_up "centos-release"]) (BACKUP_DIR offline_host)
  = true
  /\ exists (d : trace) (a : download_args) (got : option string),
       backup offline_host (Some "/etc/yum.repos.d") false None None
         (mkRestorablePackage "centos-release" None) []
       = (mkRestorablePackage "centos-release" got, [] ++ d)
       /\ downloads d = [a]
       /\ In (EvDownload a got) d
       /\ dl_pkg a = "centos-release"
       /\ dl_dest a = BACKUP_DIR offline_host
       /\ dl_reposdir a = Omitted.
Proof.
  split; [reflexivity|].
  apply (backup_repository_choice offline_host (Some "/etc/yum.repos.d") false
           None None (mkRestorablePackage "centos-release" None) []).
  reflexivity.
Defined.

(** ** Rolling packages back *)

Section RestorePkgs.

Variable h : Host.

(** Without [critical], [remove_pkgs] returns whatever [rpm] answers, and
    without [backup] it leaves the controller alone. *)
Lemma remove_pkgs_not_critical (pkgs : list string)
    (c : ChangedRPMPackagesController) (t : trace) :
  exists (removed : option (list string)) (d : trace),
    remove_pkgs h pkgs false false None false None None c t
    = (Return removed, c, t ++ d)
    /\ commands d = map erase_command pkgs.
Proof.
  unfold remove_pkgs. destruct pkgs as [|nevra pkgs].
  - exists None, [EvLog Info "No package to remove"]. split; reflexivity.
  - destruct (remove_each_effects h (nevra :: pkgs) [] [] t)
      as (failed & removed & d & Hrun & Hcmd & _).
    rewrite Hrun. destruct failed as [|f failed].
    + exists (Some removed), d. split; [reflexivity|exact Hcmd].
    + eexists; eexists. rewrite <- app_assoc. split; [reflexivity|].
      rewrite commands_app, Hcmd. apply app_nil_r.
Qed.

(** The loop of [_install_removed_pkgs]: the packages with a backup give
    their paths, in order; each package without one gives a warning. *)
Lemma collect_backups_effects (pkgs : list RestorablePackage) :
  forall (acc : list string) (t : trace),
  exists d : trace,
    collect_backups pkgs acc t = (acc ++ backup_paths pkgs, t ++ d)
    /\ commands d = []
    /\ (forall p : RestorablePackage,
           In p pkgs -> path p = None -> In (no_backup_warning p) d).
Proof.
  induction pkgs as [|p pkgs IH]; intros acc t; simpl.
  - exists []. rewrite !app_nil_r. repeat split. intros p [].
  - destruct (path p) as [b|] eqn:Hp.
    + destruct (IH (acc ++ [b]) t) as (d & Hrun & Hcmd & Hwarn).
      exists d. rewrite Hrun, <- app_assoc. repeat split; [exact Hcmd|].
      intros q [<-|Hin] Hq; [congruence|now apply Hwarn].
    + destruct (IH acc (t ++ [no_backup_warning p])) as (d & Hrun & Hcmd & Hwarn).
      exists (no_backup_warning p :: d). rewrite Hrun, <- app_assoc.
      repeat split; [exact Hcmd|].
      intros q [<-|Hin] Hq; [now left|right; now apply Hwarn].
Qed.

Lemma track_installed_keeps_removed (paths : list string) :
  forall c : ChangedRPMPackagesController,
    removed_pkgs (fold_left (fun c p => track_installed_pkg (nvra_of_path p) c)
                    paths c)
    = removed_pkgs c.
Proof.
  induction paths as [|p paths IH]; intros c; simpl; [reflexivity|].
  now rewrite IH.
Qed.

(** Without [critical], [_install_local_rpms] never raises; with something
    to install it runs one [rpm -i] on all the paths. *)
Lemma install_local_rpms_not_critical (paths : list string)
    (c : ChangedRPMPackagesController) (t : trace) :
  exists (done : bool) (c' : ChangedRPMPackagesController) (d : trace),
    _install_local_rpms h paths true false c t = (Return done, c', t ++ d)
    /\ removed_pkgs c' = removed_pkgs c
    /\ commands d = match paths with
                    | [] => []
                    | _ :: _ => [install_command paths]
                    end.
Proof.
  unfold _install_local_rpms. destruct paths as [|p paths].
  - exists false, c, [EvLog Info "No package to install."]. repeat split.
  - set (l := p :: paths).
    destruct (run_subprocess h _ _ (Passed false)) as [output ret_code].
    assert (Hinfo : forall l', commands (map (fun pkg => EvLog Info (String "009" pkg)) l') = []).
    { induction l' as [|x l' IHl]; simpl; [reflexivity|exact IHl]. }
    destruct (negb (ret_code =? 0)%Z).
    + eexists; eexists; eexists. rewrite <- !app_assoc.
      split; [reflexivity|]. split; [reflexivity|].
      simpl. rewrite !commands_app, Hinfo. reflexivity.
    + eexists; eexists; eexists. rewrite <- !app_assoc.
      split; [reflexivity|]. split; [apply track_installed_keeps_removed|].
      simpl. rewrite !commands_app, Hinfo. reflexivity.
Qed.

(** [restore_pkgs] never raises.  It erases every tracked installed
    package, whatever [rpm] answers for each; then, for the removed
    packages, it warns about each one without a backup and reinstalls
    those with one in a single [rpm -i --replacepkgs]. *)
Lemma restore_pkgs_effects (self : ChangedRPMPackagesController) (t : trace) :
  exists (self' : ChangedRPMPackagesController) (d : trace),
    restore_pkgs h self t = (Return tt, self', t ++ d)
    /\ removed_pkgs self' = removed_pkgs self
    /\ commands d
       = map erase_command (installed_pkgs self)
           ++ match backup_paths (removed_pkgs self) with
              | [] => []
              | _ :: _ => [install_command (backup_paths (removed_pkgs self))]
              end
    /\ (forall p : RestorablePackage,
           In p (removed_pkgs self) -> path p = None ->
           In (no_backup_warning p) d).
Proof.
  unfold restore_pkgs, _remove_installed_pkgs, _install_removed_pkgs.
  destruct (remove_pkgs_not_critical (installed_pkgs self) self
              (t ++ [EvLog Task "Rollback: Remove installed packages"]))
    as (removed & d1 & Hrun1 & Hcmd1).
  rewrite Hrun1.
  destruct (collect_backups_effects (removed_pkgs self) []
              ((((t ++ [EvLog Task "Rollback: Remove installed packages"]) ++ d1)
                  ++ [EvRemoveOrphanFolders])
                 ++ [EvLog Task "Rollback: Install removed packages"]))
    as (d2 & Hrun2 & Hcmd2 & Hwarn).
  rewrite Hrun2. simpl app at 1.
  match goal with
  | |- context [_install_local_rpms h ?ps true false self ?t3] =>
      destruct (install_local_rpms_not_critical ps self t3)
        as (done & self' & d3 & Hrun3 & Hrem & Hcmd3)
  end.
  rewrite Hrun3.
  exists self',
    ([EvLog Task "Rollback: Remove installed packages"] ++ d1
       ++ [EvRemoveOrphanFolders]
       ++ [EvLog Task "Rollback: Install removed packages"] ++ d2 ++ d3).
  split; [|split; [exact Hrem|split]].
  - rewrite <- !app_assoc. reflexivity.
  - simpl. rewrite !commands_app. simpl. rewrite commands_app.
    rewrite Hcmd1, Hcmd2, Hcmd3. reflexivity.
  - intros p Hin Hp. do 4 (apply in_or_app; right).
    apply in_or_app. left. now apply Hwarn.
Qed.

End RestorePkgs.

(** C10.  When the backup directory cannot be reached, the backup of a
    package logs a warning and returns, with [path] still [None], and the
    package is tracked in [removed_pkgs] all the same.  [restore_pkgs]
    erases every tracked installed package, going on after a failure, then
    warns about each removed package whose [path] is [None] and reinstalls
    the removed packages that have a backup. *)
Theorem backup_is_best_effort_and_restore_skips_missing
    (h : Host) (pkg : string) (reposdir : option string) (set_releasever : bool)
    (custom_releasever varsdir : option string)
    (c : ChangedRPMPackagesController) (t : trace) :
  isdir h (t ++ [backing_up pkg]) (BACKUP_DIR h) = false ->
  backup h reposdir set_releasever custom_releasever varsdir
    (mkRestorablePackage pkg None) t
  = (mkRestorablePackage pkg None,
     t ++ [backing_up pkg; EvLog Warning ("Can't access " ++ BACKUP_DIR h)])
  /\ backup_and_track_removed_pkg h pkg reposdir set_releasever custom_releasever
       varsdir c t
     = (mkChangedRPMPackagesController (installed_pkgs c)
          (removed_pkgs c ++ [mkRestorablePackage pkg None]),
        t ++ [backing_up pkg; EvLog Warning ("Can't access " ++ BACKUP_DIR h)])
  /\ forall (self : ChangedRPMPackagesController) (t0 : trace),
       exists (self' : ChangedRPMPackagesController) (d : trace),
         restore_pkgs h self t0 = (Return tt, self', t0 ++ d)
         /\ commands d
            = map erase_command (installed_pkgs self)
                ++ match backup_paths (removed_pkgs self) with
                   | [] => []
                   | _ :: _ => [install_command (backup_paths (removed_pkgs self))]
                   end
         /\ (forall p : RestorablePackage,
                In p (removed_pkgs self) -> path p = None ->
                In (no_backup_warning p) d).
Proof.
  intros Hdir.
  assert (Hb : backup h reposdir set_releasever custom_releasever varsdir
                 (mkRestorablePackage pkg None) t
               = (mkRestorablePackage pkg None,
                  t ++ [backing_up pkg;
                        EvLog Warning ("Can't access " ++ BACKUP_DIR h)])).
  { unfold backup. simpl name. rewrite Hdir, <- app_assoc. reflexivity. }
  split; [exact Hb|]. split.
  - unfold backup_and_track_removed_pkg. now rewrite Hb.
  - intros self t0.
    destruct (restore_pkgs_effects h self t0) as (self' & d & Hrun & _ & Hcmd & Hw).
    exists self', d. repeat split; assumption.
Qed.

Lemma backup_is_best_effort_and_restore_skips_missing_witness :
  isdir no_backup_dir_host ([] ++ [backing_up "centos-release"])
    (BACKUP_DIR no_backup_dir_host) = false
  /\ backup_and_track_removed_pkg no_backup_dir_host "centos-release" None false
       None None (mkChangedRPMPackagesController [] []) []
     = (mkChangedRPMPackagesController []
          [mkRestorablePackage "centos-release" None],
        [backing_up "centos-release";
         EvLog Warning "Can't access /usr/share/convert2rhel/backup"])
  /\ exists (self' : ChangedRPMPackagesController) (d : trace),
       restore_pkgs no_backup_dir_host sample_packages [] = (Return tt, self', d)
       /\ commands d
          = [["rpm"; "-e"; "--nodeps"; "kernel-uek"];
             ["rpm"; "-e"; "--nodeps"; "subscription-manager"];
             ["rpm"; "-i"; "--replacepkgs";
              "/usr/share/convert2rhel/backup/centos-logos-80.5-2.el8.noarch.rpm"]]
       /\ In (EvLog Warning "Couldn't find a backup for centos-release package.") d.
Proof.
  split; [reflexivity|].
  destruct (backup_is_best_effort_and_restore_skips_missing no_backup_dir_host
              "centos-release" None false None None
              (mkChangedRPMPackagesController [] []) [])
    as (_ & Htrack & Hrestore).
  - reflexivity.
  - split; [exact Htrack|].
    destruct (Hrestore sample_packages []) as (self' & d & Hrun & Hcmd & Hw).
    exists self', d. split; [exact Hrun|]. split; [exact Hcmd|].
    apply (Hw (mkRestorablePackage "centos-release" None)); [left|]; reflexivity.
Defined.

(** * Further properties *)

(** ** What leaves the journal is what was restored *)

Section Unwinding.

Variable h : Host.

(** Whatever ends the loop (the bottom of the journal, a partition that is
    honoured, an exception that is not caught), the entries it took are a
    prefix of the stack, and [restore()] was called on their changes, once
    each, newest first. *)
Lemma pop_all_loop_takes_what_it_restores (honor : bool) (stack : list entry) :
  forall (processed : list restorable) (t : trace),
  exists (res : result (list restorable)) (taken remaining : list entry) (d : trace),
    pop_all_loop h honor stack processed t = (res, remaining, t ++ d)
    /\ stack = taken ++ remaining
    /\ restore_calls d = changes taken
    /\ enable_calls d = []
    /\ commands d = [].
Proof.
  induction stack as [|[|r] below IH]; intros processed t; simpl.
  - exists (Return processed), [], [], []. rewrite app_nil_r. repeat split.
  - destruct honor.
    + exists (Return []), [Partition], below, []. rewrite app_nil_r. repeat split.
    + destruct (IH processed t) as (res & taken & remaining & d & Hrun & Hs & Hc & He & Hx).
      exists res, (Partition :: taken), remaining, d.
      rewrite Hrun, Hs. repeat split; assumption.
  - unfold call_restore. destruct (restore_outcome h t r) as [|e].
    + destruct (IH (processed ++ [r]) (t ++ [EvRestore r Returned]))
        as (res & taken & remaining & d & Hrun & Hs & Hc & He & Hx).
      exists res, (Change r :: taken), remaining, (EvRestore r Returned :: d).
      rewrite Hrun, Hs, <- app_assoc. simpl. rewrite Hc.
      repeat split; assumption.
    + destruct (caught_by_pop_all e).
      * destruct (IH (processed ++ [r])
                    ((t ++ [EvRestore r (Raised e)])
                       ++ [EvLog Warning (warning_rolling_back r e)]))
          as (res & taken & remaining & d & Hrun & Hs & Hc & He & Hx).
        exists res, (Change r :: taken), remaining,
          (EvRestore r (Raised e) :: EvLog Warning (warning_rolling_back r e) :: d).
        rewrite Hrun, Hs, <- !app_assoc. simpl. rewrite Hc.
        repeat split; assumption.
      * exists (Raise (Foreign e)), [Change r], below, [EvRestore r (Raised e)].
        repeat split.
Qed.

Lemma pop_from_takes_what_it_restores (stack : list entry) (t : trace) :
  exists (res : result restorable) (taken remaining : list entry) (d : trace),
    pop_from h stack t = (res, remaining, t ++ d)
    /\ stack = taken ++ remaining
    /\ restore_calls d = changes taken
    /\ enable_calls d = []
    /\ commands d = [].
Proof.
  induction stack as [|[|r] below IH]; simpl.
  - exists (Raise (IndexError "No backups to restore")), [], [], [].
    rewrite app_nil_r. repeat split.
  - destruct IH as (res & taken & remaining & d & Hrun & Hs & Hc & He & Hx).
    exists res, (Partition :: taken), remaining, d.
    rewrite Hrun, Hs. repeat split; assumption.
  - unfold call_restore. destruct (restore_outcome h t r) as [|e].
    + exists (Return r), [Change r], below, [EvRestore r Returned]. repeat split.
    + exists (Raise (Foreign e)), [Change r], below, [EvRestore r (Raised e)].
      repeat split.
Qed.

End Unwinding.

(** X1.  [pop()], [pop_all()] with either flag and [pop_to_partition()]
    only take entries from the end of the journal, whatever happens (they
    return, stop at a partition, raise [IndexError], or let an exception of
    [restore()] through): what is left is a prefix of the journal, the
    calls of [restore()] are exactly the changes taken, newest first, and
    [enable()] is never called. *)
Theorem unwinding_restores_exactly_what_it_takes
    (h : Host) (honor : bool) (self : BackupController) (t : trace) :
  (exists (taken : list entry) (d : trace),
      _restorables self = _restorables (snd (fst (pop h self t))) ++ taken
      /\ snd (pop h self t) = t ++ d
      /\ restore_calls d = rev (changes taken)
      /\ enable_calls d = [])
  /\ (exists (taken : list entry) (d : trace),
         _restorables self
         = _restorables (snd (fst (pop_all h honor self t))) ++ taken
         /\ snd (pop_all h honor self t) = t ++ d
         /\ restore_calls d = rev (changes taken)
         /\ enable_calls d = [])
  /\ (exists (taken : list entry) (d : trace),
         _restorables self
         = _restorables (snd (fst (pop_to_partition h self t))) ++ taken
         /\ snd (pop_to_partition h self t) = t ++ d
         /\ restore_calls d = rev (changes taken)
         /\ enable_calls d = []).
Proof.
  assert (Hall : forall honor',
             exists (taken : list entry) (d : trace),
               _restorables self
               = _restorables (snd (fst (pop_all h honor' self t))) ++ taken
               /\ snd (pop_all h honor' self t) = t ++ d
               /\ restore_calls d = rev (changes taken)
               /\ enable_calls d = []).
  { intros honor'. unfold pop_all, pop_all_from.
    destruct (forallb is_partition (_restorables self)).
    - exists [], []. simpl. rewrite !app_nil_r. repeat split.
    - destruct (pop_all_loop_takes_what_it_restores h honor'
                  (rev (_restorables self)) [] t)
        as (res & taken & remaining & d & Hrun & Hs & Hc & He & _).
      rewrite Hrun. simpl. exists (rev taken), d.
      rewrite changes_rev, rev_involutive, <- rev_app_distr, <- Hs, rev_involutive.
      repeat split; assumption. }
  split; [|split; [apply Hall|]].
  - unfold pop.
    destruct (pop_from_takes_what_it_restores h (rev (_restorables self)) t)
      as (res & taken & remaining & d & Hrun & Hs & Hc & He & _).
    rewrite Hrun. simpl. exists (rev taken), d.
    rewrite changes_rev, rev_involutive, <- rev_app_distr, <- Hs, rev_involutive.
    repeat split; assumption.
  - destruct (Hall true) as (taken & d & Hj & Ht & Hc & He).
    exists taken, d. unfold pop_to_partition.
    destruct (pop_all h true self t) as [[[x|e] self'] t']; simpl in *;
      repeat split; assumption.
Qed.


(** ** pop and the partitions *)

Lemma pop_from_after_partitions (h : Host) (ms below : list entry) (t : trace) :
  forallb is_partition ms = true ->
  pop_from h (ms ++ below) t = pop_from h below t.
Proof.
  induction ms as [|[|r] ms IH]; simpl; intros H;
    [reflexivity|now apply IH|discriminate].
Qed.

Lemma forallb_is_partition_rev (ms : list entry) :
  forallb is_partition ms = true -> forallb is_partition (rev ms) = true.
Proof.
  rewrite !forallb_forall. intros H x Hx. apply H. now apply in_rev.
Qed.

(** X2.  [pop()] throws away every partition that lies above the newest
    change and calls [restore()] on that change alone.  When [restore()]
    returns, [pop()] returns the change; when it raises, the exception
    leaves [pop()] as it is.  Either way the change and the partitions above
    it are gone from the journal. *)
Theorem pop_discards_partitions_above_newest_change
    (h : Host) (j ms : list entry) (p : restorable) (t : trace) :
  forallb is_partition ms = true ->
  pop h (mkBackupController (j ++ Change p :: ms)) t
  = match restore_outcome h t p with
    | Returned => (Return p, mkBackupController j, t ++ [EvRestore p Returned])
    | Raised e =>
        (Raise (Foreign e), mkBackupController j, t ++ [EvRestore p (Raised e)])
    end.
Proof.
  intros Hms. unfold pop. simpl.
  rewrite rev_app_distr. simpl. rewrite <- app_assoc. simpl.
  rewrite pop_from_after_partitions by now apply forallb_is_partition_rev.
  simpl. unfold call_restore.
  destruct (restore_outcome h t p); rewrite rev_involutive; reflexivity.
Qed.

Lemma pop_discards_partitions_above_newest_change_witness :
  forallb is_partition [Partition; Partition] = true
  /\ pop flaky_host
       (mkBackupController
          ([Change file_change] ++ Change key_change :: [Partition; Partition])) []
     = (Raise (Foreign rpm_failure), mkBackupController [Change file_change],
        [EvRestore key_change (Raised rpm_failure)]).
Proof.
  split; [reflexivity|].
  exact (pop_discards_partitions_above_newest_change flaky_host
           [Change file_change] [Partition; Partition] key_change [] eq_refl).
Defined.

(** X3.  A [push] followed by a [pop()] is a round trip: when [enable()]
    and [restore()] return, [pop()] gives back the object that was pushed
    and the journal is what it was before the [push]; in between, one call
    of [enable()] and then one of [restore()], on that object. *)
Theorem push_then_pop_round_trip
    (h : Host) (self : BackupController) (r : restorable) (t : trace) :
  enable_outcome h t r = Returned ->
  restore_outcome h (t ++ [EvEnable r Returned]) r = Returned ->
  exists (pushed : BackupController) (t1 : trace),
    push h (Restorable r) self t = (Return tt, pushed, t1)
    /\ pop h pushed t1
       = (Return r, self, t ++ [EvEnable r Returned; EvRestore r Returned]).
Proof.
  intros Hen Hre.
  exists (mkBackupController (_restorables self ++ [Change r])),
    (t ++ [EvEnable r Returned]).
  split.
  - simpl. unfold call_enable. now rewrite Hen.
  - rewrite pop_newest_change, Hre, <- app_assoc. destruct self; reflexivity.
Qed.

Lemma push_then_pop_round_trip_witness :
  enable_outcome calm_host [] cert_change = Returned
  /\ restore_outcome calm_host ([] ++ [EvEnable cert_change Returned]) cert_change
     = Returned
  /\ exists (pushed : BackupController) (t1 : trace),
       push calm_host (Restorable cert_change) (mkBackupController sample_journal) []
       = (Return tt, pushed, t1)
       /\ pop calm_host pushed t1
          = (Return cert_change, mkBackupController sample_journal,
             [] ++ [EvEnable cert_change Returned; EvRestore cert_change Returned]).
Proof.
  split; [reflexivity|]. split; [reflexivity|].
  apply (push_then_pop_round_trip calm_host (mkBackupController sample_journal)
           cert_change []); reflexivity.
Defined.

(** X4.  A partition that is pushed is invisible to [pop()]: after pushing
    the partition, [pop()] does to the journal below it, and returns, what it
    would have without the partition. *)
Theorem pop_after_pushing_partition
    (h : Host) (self : BackupController) (t : trace) :
  exists pushed : BackupController,
    push h PartitionSentinel self t = (Return tt, pushed, t)
    /\ _restorables pushed = _restorables self ++ [Partition]
    /\ pop h pushed t = pop h self t.
Proof.
  eexists. split; [reflexivity|]. split; [reflexivity|].
  rewrite pop_skips_partition. destruct self; reflexivity.
Qed.

(** ** Popping a journal with partitions in it *)

Lemma partitions_at_bottom_all (ms : list entry) :
  forallb is_partition ms = true -> partitions_at_bottom ms = ms.
Proof.
  induction ms as [|[|r] ms IH]; simpl; intros H;
    [reflexivity|now rewrite IH|discriminate].
Qed.

Lemma partitions_at_bottom_snoc_change (a : list entry) (r : restorable) :
  partitions_at_bottom (a ++ [Change r]) = partitions_at_bottom a.
Proof.
  induction a as [|[|x] a IH]; simpl; [reflexivity|now rewrite IH|reflexivity].
Qed.

Lemma partitions_at_bottom_snoc_partition (a : list entry) :
  changes a <> [] ->
  partitions_at_bottom (a ++ [Partition]) = partitions_at_bottom a.
Proof.
  induction a as [|[|x] a IH]; simpl; intros H;
    [congruence|now rewrite IH|reflexivity].
Qed.

(** As many [pop()] calls as the stack has changes, on the journal read
    from its end. *)
Lemma pop_times_on_stack (h : Host) (stack : list entry) :
  (forall t r, In r (changes stack) -> restore_outcome h t r = Returned) ->
  forall t : trace,
    pop_times h (List.length (changes stack)) (mkBackupController (rev stack)) t
    = (map Return (changes stack),
       mkBackupController (partitions_at_bottom (rev stack)),
       t ++ map restored_ok (changes stack)).
Proof.
  induction stack as [|[|r] below IH]; intros Hre t.
  - simpl. now rewrite app_nil_r.
  - simpl changes in Hre |- *. simpl rev.
    destruct (changes below) as [|c cs] eqn:Hcs.
    + simpl. rewrite app_nil_r. f_equal. f_equal. f_equal.
      symmetry. apply partitions_at_bottom_all.
      rewrite forallb_app. simpl. rewrite andb_true_r.
      apply forallb_is_partition_rev, changes_nil_iff, Hcs.
    + assert (Hne : changes (rev below) <> []).
      { rewrite changes_rev, Hcs. simpl. intros H.
        apply app_eq_nil in H. destruct H as [_ H]. discriminate H. }
      rewrite partitions_at_bottom_snoc_partition by exact Hne.
      rewrite <- (IH Hre t). simpl List.length. cbn [pop_times].
      now rewrite pop_skips_partition.
  - simpl changes. simpl rev. simpl List.length. cbn [pop_times].
    rewrite pop_newest_change, (Hre t r) by (simpl; auto).
    rewrite IH by (intros; apply Hre; simpl; auto).
    rewrite partitions_at_bottom_snoc_change. simpl.
    rewrite <- app_assoc. reflexivity.
Qed.

(** X5.  Partitions do not disturb the order of [pop()]: on a journal with
    [m] changes and partitions anywhere, [m] calls of [pop()] return the
    changes newest first, each restored by the call that returns it, and
    leave in the journal only the partitions that lay under the oldest
    change. *)
Theorem pops_return_changes_in_reverse_past_partitions
    (h : Host) (self : BackupController) (t : trace) :
  (forall t' r, In r (changes (_restorables self)) ->
                restore_outcome h t' r = Returned) ->
  pop_times h (List.length (changes (_restorables self))) self t
  = (map Return (rev (changes (_restorables self))),
     mkBackupController (partitions_at_bottom (_restorables self)),
     t ++ map restored_ok (rev (changes (_restorables self)))).
Proof.
  intros Hre. destruct self as [j]. simpl in *.
  assert (Hre' : forall t' r, In r (changes (rev j)) ->
                              restore_outcome h t' r = Returned).
  { intros t' r Hin. apply Hre. rewrite changes_rev in Hin. now apply in_rev. }
  pose proof (pop_times_on_stack h (rev j) Hre' t) as H.
  rewrite rev_involutive, changes_rev in H.
  rewrite length_rev in H. exact H.
Qed.

Lemma pops_return_changes_in_reverse_past_partitions_witness :
  (forall t' r,
      In r (changes (_restorables
                       (mkBackupController (Partition :: sample_journal)))) ->
      restore_outcome calm_host t' r = Returned)
  /\ pop_times calm_host 3 (mkBackupController (Partition :: sample_journal)) []
     = (map Return [cert_change; key_change; file_change],
        mkBackupController [Partition],
        [] ++ map restored_ok [cert_change; key_change; file_change]).
Proof.
  split; [reflexivity|].
  apply (pops_return_changes_in_reverse_past_partitions calm_host
           (mkBackupController (Partition :: sample_journal)) []).
  reflexivity.
Defined.

(** ** pop_all and the partitions *)

Lemma pop_all_loop_without_partition (h : Host) (honor : bool)
    (rs : list restorable) :
  forall (processed : list restorable) (t : trace),
    pop_all_loop h honor (map Change rs) processed t
    = pop_all_loop h false (map Change rs) processed t.
Proof.
  induction rs as [|r rs IH]; intros processed t; simpl; [reflexivity|].
  unfold call_restore. destruct (restore_outcome h t r) as [|e]; [apply IH|].
  destruct (caught_by_pop_all e); [apply IH|reflexivity].
Qed.

(** X6.  Without a partition in the journal, honouring partitions changes
    nothing: [pop_all(True)] does and returns what [pop_all()] does, and
    [pop_to_partition()] unwinds the whole journal. *)
Theorem pop_to_partition_without_partition_unwinds_all
    (h : Host) (rs : list restorable) (t : trace) :
  pop_all h true (mkBackupController (map Change rs)) t
  = pop_all h false (mkBackupController (map Change rs)) t
  /\ pop_to_partition h (mkBackupController (map Change rs)) t
     = match pop_all h false (mkBackupController (map Change rs)) t with
       | (Return _, self', t') => (Return tt, self', t')
       | (Raise e, self', t') => (Raise e, self', t')
       end.
Proof.
  assert (H : pop_all h true (mkBackupController (map Change rs)) t
              = pop_all h false (mkBackupController (map Change rs)) t).
  { unfold pop_all, pop_all_from. simpl.
    rewrite <- map_rev, pop_all_loop_without_partition. reflexivity. }
  split; [exact H|]. unfold pop_to_partition. now rewrite H.
Qed.

(** X7.  [pop_all(True)] stops at the newest partition, whatever lies under
    it: the changes above the partition are restored, newest first, the
    partition is taken off, and everything under it (older partitions
    included) stays in the journal.  The list returned is empty, although
    changes were restored. *)
Theorem pop_all_honouring_stops_at_newest_partition
    (h : Host) (rest : list entry) (above : list restorable) (t : trace) :
  1 <= List.length (changes rest) + List.length above ->
  restores_caught h above ->
  exists d : trace,
    pop_all h true (mkBackupController (rest ++ Partition :: map Change above)) t
    = (Return [], mkBackupController rest, t ++ d)
    /\ restore_calls d = rev above
    /\ isolated d.
Proof.
  intros Hm Hc. unfold pop_all, pop_all_from. simpl.
  assert (Hall : forallb is_partition (rest ++ Partition :: map Change above) = false).
  { destruct (forallb is_partition (rest ++ Partition :: map Change above)) eqn:H;
      [|reflexivity].
    apply changes_nil_iff in H. rewrite changes_app in H. simpl in H.
    rewrite changes_map_Change in H. apply app_eq_nil in H.
    destruct H as [H1 H2]. rewrite H1, H2 in Hm. simpl in Hm. lia. }
  rewrite Hall.
  assert (Hrev : rev (rest ++ Partition :: map Change above)
                 = map Change (rev above) ++ Partition :: rev rest).
  { rewrite rev_app_distr. simpl. rewrite <- app_assoc, map_rev. reflexivity. }
  rewrite Hrev.
  assert (Hc' : restores_caught h (rev above)).
  { intros t' r e Hin. apply Hc. now apply in_rev. }
  destruct (pop_all_loop_stops_at_partition h (rev above) (rev rest) Hc' [] t)
    as (d & Hrun & Hcalls & Hiso).
  exists d. rewrite Hrun, rev_involutive. repeat split; assumption.
Qed.

Lemma pop_all_honouring_stops_at_newest_partition_witness :
  1 <= List.length (changes [Partition; Change file_change; Partition])
       + List.length [key_change; cert_change]
  /\ restores_caught flaky_host [key_change; cert_change]
  /\ exists d : trace,
       pop_all flaky_host true
         (mkBackupController
            ([Partition; Change file_change; Partition]
               ++ Partition :: map Change [key_change; cert_change])) []
       = (Return [],
          mkBackupController [Partition; Change file_change; Partition], [] ++ d)
       /\ restore_calls d = [cert_change; key_change]
       /\ isolated d.
Proof.
  assert (Hc : restores_caught flaky_host [key_change; cert_change]).
  { intros t r e Hin. apply flaky_restores_caught. simpl. simpl in Hin. tauto. }
  split; [simpl; lia|]. split; [exact Hc|].
  apply (pop_all_honouring_stops_at_newest_partition flaky_host
           [Partition; Change file_change; Partition] [key_change; cert_change] []).
  - simpl; lia.
  - exact Hc.
Defined.

(** ** An exception that pop_all does not catch *)

Lemma pop_all_loop_interrupted (h : Host) (honor : bool)
    (above : list restorable) (r : restorable) (e : foreign_exc)
    (below : list entry) :
  restores_caught h above ->
  (forall t, restore_outcome h t r = Raised e) ->
  caught_by_pop_all e = false ->
  forall (processed : list restorable) (t : trace),
  exists d : trace,
    pop_all_loop h honor (map Change above ++ Change r :: below) processed t
    = (Raise (Foreign e), below, t ++ d ++ [EvRestore r (Raised e)])
    /\ restore_calls d = above
    /\ isolated d.
Proof.
  intros Hc Hr He. induction above as [|a above IH]; intros processed t; simpl.
  - exists []. unfold call_restore. rewrite Hr, He. repeat split. constructor.
  - assert (Habove : restores_caught h above).
    { intros t' r' e' Hin. apply Hc. simpl; auto. }
    unfold call_restore. destruct (restore_outcome h t a) as [|ea] eqn:Ho.
    + destruct (IH Habove (processed ++ [a]) (t ++ [EvRestore a Returned]))
        as (d & Hrun & Hcalls & Hiso).
      exists (EvRestore a Returned :: d). rewrite Hrun, <- app_assoc. simpl.
      repeat split; [now rewrite Hcalls|now constructor].
    + assert (Hk : caught_by_pop_all ea = true).
      { apply (Hc t a ea); simpl; auto. }
      rewrite Hk.
      destruct (IH Habove (processed ++ [a])
                  ((t ++ [EvRestore a (Raised ea)])
                     ++ [EvLog Warning (warning_rolling_back a ea)]))
        as (d & Hrun & Hcalls & Hiso).
      exists (EvRestore a (Raised ea)
                :: EvLog Warning (warning_rolling_back a ea) :: d).
      rewrite Hrun, <- !app_assoc. simpl.
      repeat split; [now rewrite Hcalls|now constructor].
Qed.

(** X8.  An exception of [restore()] that is neither an [Exception] nor a
    [SystemExit] ends [pop_all()] on the spot: it leaves [pop_all()] as it
    is, with no warning logged for it; the entry that raised and those above
    it are gone from the journal (and are not returned), the entries under
    it are still there and none of them was restored. *)
Theorem pop_all_lets_other_base_exceptions_through
    (h : Host) (honor : bool) (below : list entry) (r : restorable)
    (above : list restorable) (e : foreign_exc) (t : trace) :
  restores_caught h above ->
  (forall t', restore_outcome h t' r = Raised e) ->
  caught_by_pop_all e = false ->
  exists d : trace,
    pop_all h honor (mkBackupController (below ++ Change r :: map Change above)) t
    = (Raise (Foreign e), mkBackupController below,
       t ++ d ++ [EvRestore r (Raised e)])
    /\ restore_calls d = rev above
    /\ isolated d.
Proof.
  intros Hc Hr He. unfold pop_all, pop_all_from. simpl.
  rewrite forallb_is_partition_with_change.
  assert (Hrev : rev (below ++ Change r :: map Change above)
                 = map Change (rev above) ++ Change r :: rev below).
  { rewrite rev_app_distr. simpl. rewrite <- app_assoc, map_rev. reflexivity. }
  rewrite Hrev.
  assert (Hc' : restores_caught h (rev above)).
  { intros t' r' e' Hin. apply Hc. now apply in_rev. }
  destruct (pop_all_loop_interrupted h honor (rev above) r e (rev below)
              Hc' Hr He [] t) as (d & Hrun & Hcalls & Hiso).
  exists d. rewrite Hrun, rev_involutive. repeat split; assumption.
Qed.

Lemma pop_all_lets_other_base_exceptions_through_witness :
  restores_caught interrupted_host [cert_change]
  /\ (forall t', restore_outcome interrupted_host t' key_change
                 = Raised keyboard_interrupt)
  /\ caught_by_pop_all keyboard_interrupt = false
  /\ exists d : trace,
       pop_all interrupted_host false
         (mkBackupController
            ([Change file_change; Partition]
               ++ Change key_change :: map Change [cert_change])) []
       = (Raise (Foreign keyboard_interrupt),
          mkBackupController [Change file_change; Partition],
          [] ++ d ++ [EvRestore key_change (Raised keyboard_interrupt)])
       /\ restore_calls d = [cert_change]
       /\ isolated d.
Proof.
  assert (Hc : restores_caught interrupted_host [cert_change]).
  { intros t r e [<-|[]] Ho. simpl in Ho. discriminate Ho. }
  split; [exact Hc|]. split; [reflexivity|]. split; [reflexivity|].
  apply (pop_all_lets_other_base_exceptions_through interrupted_host false
           [Change file_change; Partition] key_change [cert_change]
           keyboard_interrupt []).
  - exact Hc.
  - reflexivity.
  - reflexivity.
Defined.

(** X9.  After a [pop_all()] that returned, the controller knows of
    nothing: a [pop()] and a second [pop_all()] raise [IndexError], call
    [restore()] on nothing and log nothing. *)
Theorem nothing_to_restore_after_pop_all
    (h : Host) (self : BackupController) (t : trace) :
  1 <= List.length (changes (_restorables self)) ->
  restores_caught h (changes (_restorables self)) ->
  exists (returned : list restorable) (emptied : BackupController) (t1 : trace),
    pop_all h false self t = (Return returned, emptied, t1)
    /\ pop_all h false emptied t1
       = (Raise (IndexError "No backups to restore"), emptied, t1)
    /\ pop_all h true emptied t1
       = (Raise (IndexError "No backups to restore"), emptied, t1)
    /\ pop_to_partition h emptied t1
       = (Raise (IndexError "No backups to restore"), emptied, t1)
    /\ pop h emptied t1
       = (Raise (IndexError "No backups to restore"), emptied, t1).
Proof.
  intros Hm Hc.
  destruct (pop_all_drains h self t Hm Hc) as (d & Hrun & _ & _).
  exists (rev (changes (_restorables self))), fresh_controller, (t ++ d).
  repeat split. exact Hrun.
Qed.

Lemma nothing_to_restore_after_pop_all_witness :
  1 <= List.length (changes (_restorables (mkBackupController sample_journal)))
  /\ restores_caught flaky_host
       (changes (_restorables (mkBackupController sample_journal)))
  /\ exists (returned : list restorable) (emptied : BackupController) (t1 : trace),
       pop_all flaky_host false (mkBackupController sample_journal) []
       = (Return returned, emptied, t1)
       /\ pop_all flaky_host false emptied t1
          = (Raise (IndexError "No backups to restore"), emptied, t1)
       /\ pop_all flaky_host true emptied t1
          = (Raise (IndexError "No backups to restore"), emptied, t1)
       /\ pop_to_partition flaky_host emptied t1
          = (Raise (IndexError "No backups to restore"), emptied, t1)
       /\ pop flaky_host emptied t1
          = (Raise (IndexError "No backups to restore"), emptied, t1).
Proof.
  split; [simpl; lia|]. split; [exact flaky_restores_caught|].
  apply (nothing_to_restore_after_pop_all flaky_host
           (mkBackupController sample_journal) []).
  - simpl; lia.
  - exact flaky_restores_caught.
Defined.

(** ** What remove_pkgs reports *)

Lemma exit_statuses_app (a b : trace) :
  exit_statuses (a ++ b) = exit_statuses a ++ exit_statuses b.
Proof.
  induction a as [|e a IH]; simpl; [reflexivity|].
  destruct e; simpl; rewrite IH; reflexivity.
Qed.

Lemma exit_statuses_length (d : trace) :
  List.length (exit_statuses d) = List.length (commands d).
Proof.
  induction d as [|e d IH]; simpl; [reflexivity|].
  destruct e; simpl; rewrite ?IH; reflexivity.
Qed.

Lemma exit_statuses_no_command (d : trace) :
  commands d = [] -> exit_statuses d = [].
Proof.
  intros H. pose proof (exit_statuses_length d) as L. rewrite H in L.
  destruct (exit_statuses d); [reflexivity|discriminate L].
Qed.

(** The removal loop sorts the packages by the exit status of their
    removal. *)
Lemma remove_each_outcome (h : Host) (pkgs : list string) :
  forall (failed removed : list string) (t : trace),
  exists d : trace,
    remove_each h pkgs failed removed t
    = (failed ++ failed_of pkgs (exit_statuses d),
       removed ++ removed_of pkgs (exit_statuses d), t ++ d)
    /\ List.length (exit_statuses d) = List.length pkgs.
Proof.
  induction pkgs as [|nevra pkgs IH]; intros failed removed t;
    cbn [remove_each].
  - exists []. simpl. now rewrite !app_nil_r.
  - set (nvra := remove_epoch_from_yum_nevra_notation nevra).
    destruct (run_subprocess h _ (rpm_erase nvra) Omitted) as [output ret_code].
    destruct (ret_code =? 0)%Z eqn:Hret; cbn [negb].
    + destruct (IH failed (removed ++ [nevra])
                  ((t ++ [EvLog Info ("Removing package: " ++ nvra)])
                     ++ [EvRun (rpm_erase nvra) Omitted output ret_code]))
        as (d & Hrun & Hlen).
      exists (EvLog Info ("Removing package: " ++ nvra)
                :: EvRun (rpm_erase nvra) Omitted output ret_code :: d).
      rewrite Hrun. cbn [exit_statuses failed_of removed_of List.length].
      rewrite Hret, Hlen, <- !app_assoc. split; reflexivity.
    + destruct (IH (failed ++ [nevra]) removed
                  ((t ++ [EvLog Info ("Removing package: " ++ nvra)])
                     ++ [EvRun (rpm_erase nvra) Omitted output ret_code]))
        as (d & Hrun & Hlen).
      exists (EvLog Info ("Removing package: " ++ nvra)
                :: EvRun (rpm_erase nvra) Omitted output ret_code :: d).
      rewrite Hrun. cbn [exit_statuses failed_of removed_of List.length].
      rewrite Hret, Hlen, <- !app_assoc. split; reflexivity.
Qed.

(** X10.  [remove_pkgs] runs the removal of every package of the list,
    whatever the exit statuses, and sorts the packages by them.  When every
    removal exits with 0, or when [critical] is false, it returns the
    packages whose removal exited with 0, in the order and the notation of
    the list.  When some removal failed and [critical] is true, it raises
    [CriticalError] with the id [FAILED_TO_REMOVE_PACKAGES], naming the
    packages that failed. *)
Theorem remove_pkgs_reports_by_exit_status
    (h : Host) (pkgs_to_remove : list string) (backup critical : bool)
    (reposdir : option string) (set_releasever : bool)
    (custom_releasever varsdir : option string)
    (c : ChangedRPMPackagesController) (t : trace) :
  pkgs_to_remove <> [] ->
  exists (res : result (option (list string)))
         (c' : ChangedRPMPackagesController) (d : trace),
    remove_pkgs h pkgs_to_remove backup critical reposdir set_releasever
      custom_releasever varsdir c t
    = (res, c', t ++ d)
    /\ commands d = map erase_command pkgs_to_remove
    /\ List.length (exit_statuses d) = List.length pkgs_to_remove
    /\ match failed_of pkgs_to_remove (exit_statuses d) with
       | [] => res = Return (Some (removed_of pkgs_to_remove (exit_statuses d)))
       | f :: fs =>
           if critical then
             exists title description : string,
               res = Raise (CriticalError "FAILED_TO_REMOVE_PACKAGES" title
                              description
                              ("Couldn't remove "
                               ++ format_sequence_as_message h (f :: fs) ++ "."))
           else
             res = Return (Some (removed_of pkgs_to_remove (exit_statuses d)))
       end.
Proof.
  intros Hne. unfold remove_pkgs.
  destruct pkgs_to_remove as [|nevra pkgs]; [congruence|].
  set (l := nevra :: pkgs).
  assert (Hb : exists c1 d1,
             (if backup
              then backup_each h l reposdir set_releasever custom_releasever
                     varsdir c t
              else (c, t)) = (c1, t ++ d1)
             /\ commands d1 = []).
  { destruct backup.
    - destruct (backup_each_effects h l reposdir set_releasever
                  custom_releasever varsdir c t)
        as (c1 & d1 & Hrun & _ & _ & Hcmd & _).
      exists c1, d1. split; assumption.
    - exists c, []. rewrite app_nil_r. split; reflexivity. }
  destruct Hb as (c1 & d1 & Hrun1 & Hcmd1). rewrite Hrun1.
  pose proof (exit_statuses_no_command d1 Hcmd1) as Hst1.
  destruct (remove_each_outcome h l [] [] (t ++ d1)) as (d2 & Hrun2 & Hlen2).
  destruct (remove_each_effects h l [] [] (t ++ d1))
    as (f' & r' & d2' & Hrun2' & Hcmd2 & _).
  rewrite Hrun2 in Hrun2'. injection Hrun2' as _ _ Hd.
  apply app_inv_head in Hd. subst d2'.
  rewrite Hrun2. cbn [app].
  destruct (failed_of l (exit_statuses d2)) as [|f fs] eqn:Hf.
  - exists (Return (Some (removed_of l (exit_statuses d2)))), c1, (d1 ++ d2).
    rewrite app_assoc, commands_app, exit_statuses_app, Hcmd1, Hst1.
    cbn [app]. rewrite Hf. repeat split; assumption.
  - destruct critical.
    + eexists; exists c1; eexists. rewrite <- !app_assoc.
      split; [reflexivity|].
      rewrite !commands_app, !exit_statuses_app, Hcmd1, Hst1.
      cbn [app commands exit_statuses]. rewrite !app_nil_r, Hf. repeat split; try assumption.
      eexists; eexists; reflexivity.
    + eexists; exists c1; eexists. rewrite <- !app_assoc.
      split; [reflexivity|].
      rewrite !commands_app, !exit_statuses_app, Hcmd1, Hst1.
      cbn [app commands exit_statuses]. rewrite !app_nil_r, Hf. repeat split; assumption.
Qed.

Lemma remove_pkgs_reports_by_exit_status_witness :
  ["kernel-uek"; "7:foo-1.0-1.el7.x86_64"] <> []
  /\ exists (c' : ChangedRPMPackagesController) (d : trace),
       remove_pkgs no_backup_dir_host ["kernel-uek"; "7:foo-1.0-1.el7.x86_64"]
         false false None false None None sample_packages []
       = (Return (Some ["7:foo-1.0-1.el7.x86_64"]), c', d)
       /\ exit_statuses d = [1%Z; 0%Z].
Proof.
  split; [discriminate|].
  destruct (remove_pkgs_reports_by_exit_status no_backup_dir_host
              ["kernel-uek"; "7:foo-1.0-1.el7.x86_64"] false false None false
              None None sample_packages [])
    as (res & c' & d & Hrun & _ & _ & _).
  - discriminate.
  - exists c', d. simpl app in Hrun. split.
    + rewrite Hrun. vm_compute in Hrun. injection Hrun as <- _ _. reflexivity.
    + vm_compute in Hrun. injection Hrun as _ _ <-. reflexivity.
Defined.

(** X11.  Without [backup], [remove_pkgs] leaves the tracker of changed
    packages as it was, downloads nothing and announces no backup, whatever
    the list, the flag [critical] and the exit statuses. *)
Theorem remove_pkgs_without_backup_tracks_nothing
    (h : Host) (pkgs_to_remove : list string) (critical : bool)
    (reposdir : option string) (set_releasever : bool)
    (custom_releasever varsdir : option string)
    (c : ChangedRPMPackagesController) (t : trace) :
  exists (res : result (option (list string))) (d : trace),
    remove_pkgs h pkgs_to_remove false critical reposdir set_releasever
      custom_releasever varsdir c t
    = (res, c, t ++ d)
    /\ downloads d = []
    /\ (forall pkgname : string, ~ In (backing_up pkgname) d).
Proof.
  unfold remove_pkgs. destruct pkgs_to_remove as [|nevra pkgs].
  - eexists; eexists. split; [reflexivity|]. split; [reflexivity|].
    intros p [H|[]]. discriminate H.
  - destruct (remove_each_effects h (nevra :: pkgs) [] [] t)
      as (failed & removed & d & Hrun & _ & Hdl & _ & Hnb).
    rewrite Hrun. destruct failed as [|f fs]; [|destruct critical].
    + eexists; eexists. split; [reflexivity|]. split; assumption.
    + eexists; eexists. rewrite <- app_assoc. split; [reflexivity|].
      rewrite downloads_app, Hdl. split; [reflexivity|].
      intros p Hin. apply in_app_or in Hin. destruct Hin as [Hin|[Hin|[]]];
        [exact (Hnb p Hin)|discriminate Hin].
    + eexists; eexists. rewrite <- app_assoc. split; [reflexivity|].
      rewrite downloads_app, Hdl. split; [reflexivity|].
      intros p Hin. apply in_app_or in Hin. destruct Hin as [Hin|[Hin|[]]];
        [exact (Hnb p Hin)|discriminate Hin].
Qed.

(** ** Installing local packages *)

Lemma track_each_installed (paths : list string) :
  forall c : ChangedRPMPackagesController,
    fold_left (fun c p => track_installed_pkg (nvra_of_path p) c) paths c
    = mkChangedRPMPackagesController
        (installed_pkgs c ++ map nvra_of_path paths) (removed_pkgs c).
Proof.
  induction paths as [|p paths IH]; intros c; simpl.
  - rewrite app_nil_r. destruct c; reflexivity.
  - rewrite IH. simpl. rewrite <- app_assoc. reflexivity.
Qed.

Lemma commands_of_install_log (paths : list string) :
  commands (map (fun pkg => EvLog Info (String "009" pkg)) paths) = []
  /\ exit_statuses (map (fun pkg => EvLog Info (String "009" pkg)) paths) = [].
Proof. induction paths as [|p paths [IH1 IH2]]; simpl; split; auto. Qed.

(** X12.  [_install_local_rpms] on a list that is not empty runs one
    [rpm -i] on all the paths ([--replacepkgs] added when [replace] is set).
    When it exits with 0, the result is [True] and the name of each file,
    without directory and extension, is tracked as installed, in order.
    Otherwise nothing is tracked: with [critical] the call raises
    [CriticalError] with the id [FAILED_TO_INSTALL_PACKAGES], without it the
    result is [False]. *)
Theorem install_local_rpms_by_exit_status
    (h : Host) (pkgs_to_install : list string) (replace critical : bool)
    (self : ChangedRPMPackagesController) (t : trace) :
  pkgs_to_install <> [] ->
  exists (res : result bool) (self' : ChangedRPMPackagesController)
         (d : trace) (ret_code : Z),
    _install_local_rpms h pkgs_to_install replace critical self t
    = (res, self', t ++ d)
    /\ commands d
       = [(if replace then ["rpm"; "-i"; "--replacepkgs"] else ["rpm"; "-i"])
            ++ pkgs_to_install]
    /\ exit_statuses d = [ret_code]
    /\ removed_pkgs self' = removed_pkgs self
    /\ if (ret_code =? 0)%Z then
         res = Return true
         /\ installed_pkgs self'
            = installed_pkgs self ++ map nvra_of_path pkgs_to_install
       else
         installed_pkgs self' = installed_pkgs self
         /\ if critical then
              exists title description diagnosis : string,
                res = Raise (CriticalError "FAILED_TO_INSTALL_PACKAGES" title
                               description diagnosis)
            else res = Return false.
Proof.
  intros Hne. unfold _install_local_rpms.
  destruct pkgs_to_install as [|p paths]; [congruence|].
  set (l := p :: paths).
  destruct (commands_of_install_log l) as [Hlog1 Hlog2].
  destruct (run_subprocess h _ _ (Passed false)) as [output ret_code].
  destruct (ret_code =? 0)%Z eqn:Hret; cbn [negb].
  - eexists; eexists; eexists; exists ret_code. rewrite <- !app_assoc.
    split; [reflexivity|].
    rewrite !commands_app, !exit_statuses_app, Hlog1, Hlog2, Hret.
    rewrite track_each_installed. repeat split.
  - destruct critical.
    + eexists; eexists; eexists; exists ret_code. rewrite <- !app_assoc.
      split; [reflexivity|].
      rewrite !commands_app, !exit_statuses_app, Hlog1, Hlog2, Hret.
      repeat split. eexists; eexists; eexists; reflexivity.
    + eexists; eexists; eexists; exists ret_code. rewrite <- !app_assoc.
      split; [reflexivity|].
      rewrite !commands_app, !exit_statuses_app, Hlog1, Hlog2, Hret.
      repeat split.
Qed.

Lemma install_local_rpms_by_exit_status_witness :
  ["/usr/share/convert2rhel/backup/centos-logos-80.5-2.el8.noarch.rpm"] <> []
  /\ exists (self' : ChangedRPMPackagesController) (d : trace),
       _install_local_rpms calm_host
         ["/usr/share/convert2rhel/backup/centos-logos-80.5-2.el8.noarch.rpm"]
         true true sample_packages []
       = (Return true, self', d)
       /\ installed_pkgs self'
          = ["kernel-uek"; "subscription-manager"; "centos-logos-80.5-2.el8.noarch"].
Proof.
  split; [discriminate|].
  destruct (install_local_rpms_by_exit_status calm_host
              ["/usr/share/convert2rhel/backup/centos-logos-80.5-2.el8.noarch.rpm"]
              true true sample_packages [])
    as (res & self' & d & ret_code & Hrun & _ & _ & _ & _).
  - discriminate.
  - exists self', d. vm_compute in Hrun. injection Hrun as <- <- <-.
    split; reflexivity.
Defined.

(** ** The tracker after a rollback *)

Section AfterRestore.

Variable h : Host.

(** The reinstallation of [_install_removed_pkgs]: not critical, replacing. *)
Lemma reinstall_outcome (paths : list string)
    (c : ChangedRPMPackagesController) (t : trace) :
  paths <> [] ->
  exists (ret_code : Z) (d : trace),
    _install_local_rpms h paths true false c t
    = (Return (ret_code =? 0)%Z,
       if (ret_code =? 0)%Z
       then mkChangedRPMPackagesController
              (installed_pkgs c ++ map nvra_of_path paths) (removed_pkgs c)
       else c,
       t ++ d)
    /\ exit_statuses d = [ret_code]
    /\ commands d = [install_command paths].
Proof.
  intros Hne. unfold _install_local_rpms.
  destruct paths as [|p paths]; [congruence|].
  set (l := p :: paths).
  destruct (commands_of_install_log l) as [Hlog1 Hlog2].
  destruct (run_subprocess h _ _ (Passed false)) as [output ret_code].
  exists ret_code.
  destruct (ret_code =? 0)%Z eqn:Hret; cbn [negb].
  - eexists. rewrite <- !app_assoc, track_each_installed.
    split; [reflexivity|].
    rewrite !commands_app, !exit_statuses_app, Hlog1, Hlog2. split; reflexivity.
  - eexists. rewrite <- !app_assoc. split; [reflexivity|].
    rewrite !commands_app, !exit_statuses_app, Hlog1, Hlog2. split; reflexivity.
Qed.

(** What [restore_pkgs] leaves in the tracker, by the exit status of the
    reinstallation (the status that comes after those of the removals). *)
Lemma restore_pkgs_state (self : ChangedRPMPackagesController) (t : trace) :
  exists (self' : ChangedRPMPackagesController) (d : trace),
    restore_pkgs h self t = (Return tt, self', t ++ d)
    /\ removed_pkgs self' = removed_pkgs self
    /\ commands d
       = map erase_command (installed_pkgs self)
           ++ match backup_paths (removed_pkgs self) with
              | [] => []
              | _ :: _ => [install_command (backup_paths (removed_pkgs self))]
              end
    /\ In EvRemoveOrphanFolders d
    /\ installed_pkgs self'
       = installed_pkgs self
           ++ match skipn (List.length (installed_pkgs self)) (exit_statuses d) with
              | ret_code :: _ =>
                  if (ret_code =? 0)%Z
                  then map nvra_of_path (backup_paths (removed_pkgs self))
                  else []
              | [] => []
              end.
Proof.
  unfold restore_pkgs, _remove_installed_pkgs, _install_removed_pkgs.
  destruct (remove_pkgs_not_critical h (installed_pkgs self) self
              (t ++ [EvLog Task "Rollback: Remove installed packages"]))
    as (removed & d1 & Hrun1 & Hcmd1).
  rewrite Hrun1.
  destruct (collect_backups_effects (removed_pkgs self) []
              ((((t ++ [EvLog Task "Rollback: Remove installed packages"]) ++ d1)
                  ++ [EvRemoveOrphanFolders])
                 ++ [EvLog Task "Rollback: Install removed packages"]))
    as (d2 & Hrun2 & Hcmd2 & _).
  rewrite Hrun2. cbn [app].
  assert (Hlen1 : List.length (exit_statuses d1) = List.length (installed_pkgs self)).
  { rewrite exit_statuses_length, Hcmd1. apply length_map. }
  pose proof (exit_statuses_no_command d2 Hcmd2) as Hst2.
  assert (Hskip : forall rest : list Z,
             skipn (List.length (installed_pkgs self)) (exit_statuses d1 ++ rest)
             = rest).
  { intros rest. rewrite <- Hlen1, skipn_app, skipn_all, Nat.sub_diag. reflexivity. }
  destruct (backup_paths (removed_pkgs self)) as [|b bs] eqn:Hpaths.
  - cbn [_install_local_rpms].
    exists self,
      ([EvLog Task "Rollback: Remove installed packages"] ++ d1
         ++ [EvRemoveOrphanFolders]
         ++ [EvLog Task "Rollback: Install removed packages"] ++ d2
         ++ [EvLog Info "No package to install."]).
    split; [rewrite <- !app_assoc; reflexivity|]. split; [reflexivity|].
    split; [|split].
    + cbn [app commands]. rewrite !commands_app. cbn [commands app].
      rewrite commands_app, Hcmd1, Hcmd2. reflexivity.
    + do 2 (apply in_or_app; right). simpl. left. reflexivity.
    + cbn [app exit_statuses]. rewrite !exit_statuses_app. cbn [exit_statuses app].
      rewrite exit_statuses_app, Hst2. cbn [exit_statuses app].
      rewrite Hskip, app_nil_r. reflexivity.
  - match goal with
    | |- context [_install_local_rpms h (b :: bs) true false self ?t3] =>
        destruct (reinstall_outcome (b :: bs) self t3)
          as (ret_code & d3 & Hrun3 & Hst3 & Hcmd3); [discriminate|]
    end.
    rewrite Hrun3.
    eexists.
    exists ([EvLog Task "Rollback: Remove installed packages"] ++ d1
              ++ [EvRemoveOrphanFolders]
              ++ [EvLog Task "Rollback: Install removed packages"] ++ d2 ++ d3).
    split; [rewrite <- !app_assoc; reflexivity|]. split; [|split; [|split]].
    + destruct (ret_code =? 0)%Z; reflexivity.
    + cbn [app commands]. rewrite !commands_app. cbn [commands app].
      rewrite !commands_app, Hcmd1, Hcmd2, Hcmd3. reflexivity.
    + do 2 (apply in_or_app; right). simpl. left. reflexivity.
    + cbn [app exit_statuses]. rewrite !exit_statuses_app. cbn [exit_statuses app].
      rewrite !exit_statuses_app, Hst2, Hst3. cbn [app].
      rewrite Hskip. destruct (ret_code =? 0)%Z; [reflexivity|].
      now rewrite app_nil_r.
Qed.

End AfterRestore.

(** X13.  [restore_pkgs] leaves [removed_pkgs] as it is and never takes a
    package off [installed_pkgs], not even one it has just erased.  When
    the reinstallation exits with 0, it adds the names of the packages it
    reinstalled to [installed_pkgs]; in every other case [installed_pkgs]
    is unchanged. *)
Theorem restore_pkgs_tracks_what_it_reinstalls
    (h : Host) (self : ChangedRPMPackagesController) (t : trace) :
  exists (self' : ChangedRPMPackagesController) (d : trace),
    restore_pkgs h self t = (Return tt, self', t ++ d)
    /\ removed_pkgs self' = removed_pkgs self
    /\ installed_pkgs self'
       = installed_pkgs self
           ++ match skipn (List.length (installed_pkgs self)) (exit_statuses d) with
              | ret_code :: _ =>
                  if (ret_code =? 0)%Z
                  then map nvra_of_path (backup_paths (removed_pkgs self))
                  else []
              | [] => []
              end.
Proof.
  destruct (restore_pkgs_state h self t) as (self' & d & Hrun & Hrem & _ & _ & Hinst).
  exists self', d. repeat split; assumption.
Qed.

(** X14.  With no package tracked as installed and no backup to reinstall,
    [restore_pkgs] runs no command and leaves the tracker as it is; it
    still calls [remove_orphan_folders()]. *)
Theorem restore_pkgs_with_nothing_to_do
    (h : Host) (self : ChangedRPMPackagesController) (t : trace) :
  installed_pkgs self = [] ->
  backup_paths (removed_pkgs self) = [] ->
  exists d : trace,
    restore_pkgs h self t = (Return tt, self, t ++ d)
    /\ commands d = []
    /\ In EvRemoveOrphanFolders d.
Proof.
  intros Hinst Hpaths.
  destruct (restore_pkgs_state h self t)
    as (self' & d & Hrun & Hrem & Hcmd & Horph & Hinst').
  exists d. rewrite Hinst, Hpaths in Hcmd.
  assert (Hst : exit_statuses d = []) by now apply exit_statuses_no_command.
  rewrite Hst, Hinst in Hinst'. simpl in Hinst'.
  assert (Hself : self' = self).
  { destruct self as [i r], self' as [i' r']. simpl in *. congruence. }
  rewrite Hself in Hrun. repeat split; assumption.
Qed.

Lemma restore_pkgs_with_nothing_to_do_witness :
  installed_pkgs
    (mkChangedRPMPackagesController [] [mkRestorablePackage "centos-release" None])
  = []
  /\ backup_paths
       (removed_pkgs
          (mkChangedRPMPackagesController []
             [mkRestorablePackage "centos-release" None]))
     = []
  /\ exists d : trace,
       restore_pkgs broken_rpm_host
         (mkChangedRPMPackagesController []
            [mkRestorablePackage "centos-release" None]) []
       = (Return tt,
          mkChangedRPMPackagesController []
            [mkRestorablePackage "centos-release" None], [] ++ d)
       /\ commands d = []
       /\ In EvRemoveOrphanFolders d.
Proof.
  split; [reflexivity|]. split; [reflexivity|].
  apply (restore_pkgs_with_nothing_to_do broken_rpm_host
           (mkChangedRPMPackagesController []
              [mkRestorablePackage "centos-release" None]) []); reflexivity.
Defined.

(** ** From the backup to the reinstallation *)

Lemma backup_paths_app (a b : list RestorablePackage) :
  backup_paths (a ++ b) = backup_paths a ++ backup_paths b.
Proof.
  induction a as [|p a IH]; simpl; [reflexivity|].
  destruct (path p); simpl; now rewrite IH.
Qed.

Lemma downloaded_app (a b : trace) :
  downloaded (a ++ b) = downloaded a ++ downloaded b.
Proof.
  induction a as [|e a IH]; simpl; [reflexivity|].
  destruct e as [| | |x [p|]| |]; simpl; rewrite IH; reflexivity.
Qed.

(** The backup of a package that has none yet: its path is the artifact that
    was downloaded, if any. *)
Lemma backup_path_is_download (h : Host) (reposdir : option string)
    (set_releasever : bool) (custom_releasever varsdir : option string)
    (pkg : string) (t : trace) :
  exists (self' : RestorablePackage) (d : trace),
    backup h reposdir set_releasever custom_releasever varsdir
      (mkRestorablePackage pkg None) t
    = (self', t ++ d)
    /\ backup_paths [self'] = downloaded d
    /\ commands d = [].
Proof.
  unfold backup. cbn [name].
  destruct (isdir h _ _).
  - destruct (negb (has_internet_access h));
      match goal with |- context [truthy ?r] => destruct (truthy r) end;
      match goal with |- context [download_pkg h ?t1 ?a] =>
        destruct (download_pkg h t1 a) end;
      eexists; eexists; rewrite <- ?app_assoc;
      (split; [reflexivity|]); split; reflexivity.
  - eexists; eexists; rewrite <- ?app_assoc;
      (split; [reflexivity|]); split; reflexivity.
Qed.

Lemma backup_each_paths (h : Host) (pkgs : list string) (reposdir : option string)
    (set_releasever : bool) (custom_releasever varsdir : option string) :
  forall (c : ChangedRPMPackagesController) (t : trace),
  exists (c' : ChangedRPMPackagesController) (d : trace),
    backup_each h pkgs reposdir set_releasever custom_releasever varsdir c t
    = (c', t ++ d)
    /\ installed_pkgs c' = installed_pkgs c
    /\ backup_paths (removed_pkgs c') = backup_paths (removed_pkgs c) ++ downloaded d
    /\ commands d = [].
Proof.
  induction pkgs as [|nevra pkgs IH]; intros c t; simpl.
  - exists c, []. rewrite !app_nil_r. repeat split.
  - unfold backup_and_track_removed_pkg.
    destruct (backup_path_is_download h reposdir set_releasever custom_releasever
                varsdir nevra t) as (p & d1 & Hrun1 & Hpath & Hcmd1).
    rewrite Hrun1.
    destruct (IH (mkChangedRPMPackagesController (installed_pkgs c)
                    (removed_pkgs c ++ [p])) (t ++ d1))
      as (c' & d2 & Hrun2 & Hinst & Hpaths & Hcmd2).
    exists c', (d1 ++ d2). rewrite Hrun2, app_assoc.
    split; [reflexivity|]. split; [exact Hinst|]. split.
    + rewrite Hpaths. simpl. rewrite backup_paths_app, Hpath, downloaded_app.
      now rewrite <- app_assoc.
    + rewrite commands_app, Hcmd1, Hcmd2. reflexivity.
Qed.

Lemma remove_each_downloads_nothing (h : Host) (pkgs : list string) :
  forall (failed removed : list string) (t : trace),
  exists (failed' removed' : list string) (d : trace),
    remove_each h pkgs failed removed t = (failed', removed', t ++ d)
    /\ downloaded d = [].
Proof.
  induction pkgs as [|nevra pkgs IH]; intros failed removed t;
    cbn [remove_each].
  - exists failed, removed, []. now rewrite app_nil_r.
  - destruct (run_subprocess h _ _ Omitted) as [output ret_code].
    destruct (negb (ret_code =? 0)%Z);
      match goal with |- context [remove_each h pkgs ?f ?r ?t2] =>
        destruct (IH f r t2) as (failed' & removed' & d & Hrun & Hdl) end;
      rewrite Hrun; eexists; eexists; eexists; rewrite <- !app_assoc;
      (split; [reflexivity|]); simpl; exact Hdl.
Qed.

(** X15.  What [remove_pkgs] with [backup] downloaded is what a later
    [restore_pkgs] reinstalls: after erasing the packages tracked as
    installed, [restore_pkgs] hands to one [rpm -i --replacepkgs] the
    backups tracked before, followed by the artifacts that the downloads
    delivered, in the order of the removals; a package whose download
    delivered nothing is left out.  This holds whether [remove_pkgs]
    returned or raised. *)
Theorem restore_pkgs_reinstalls_what_remove_pkgs_backed_up
    (h : Host) (pkgs_to_remove : list string) (critical : bool)
    (reposdir : option string) (set_releasever : bool)
    (custom_releasever varsdir : option string)
    (c : ChangedRPMPackagesController) (t : trace) :
  exists (res : result (option (list string)))
         (c1 c2 : ChangedRPMPackagesController) (d1 d2 : trace),
    remove_pkgs h pkgs_to_remove true critical reposdir set_releasever
      custom_releasever varsdir c t
    = (res, c1, t ++ d1)
    /\ restore_pkgs h c1 (t ++ d1) = (Return tt, c2, (t ++ d1) ++ d2)
    /\ commands d2
       = map erase_command (installed_pkgs c)
           ++ match backup_paths (removed_pkgs c) ++ downloaded d1 with
              | [] => []
              | p :: ps => [install_command (p :: ps)]
              end.
Proof.
  assert (Hremove : exists res c1 d1,
             remove_pkgs h pkgs_to_remove true critical reposdir set_releasever
               custom_releasever varsdir c t = (res, c1, t ++ d1)
             /\ installed_pkgs c1 = installed_pkgs c
             /\ backup_paths (removed_pkgs c1)
                = backup_paths (removed_pkgs c) ++ downloaded d1).
  { unfold remove_pkgs. destruct pkgs_to_remove as [|nevra pkgs].
    - eexists; exists c; eexists. split; [reflexivity|].
      split; [reflexivity|]. simpl. now rewrite app_nil_r.
    - destruct (backup_each_paths h (nevra :: pkgs) reposdir set_releasever
                  custom_releasever varsdir c t)
        as (c1 & d1 & Hrun1 & Hinst & Hpaths & _).
      rewrite Hrun1.
      destruct (remove_each_downloads_nothing h (nevra :: pkgs) [] [] (t ++ d1))
        as (failed & removed & d2 & Hrun2 & Hdl2).
      rewrite Hrun2.
      destruct failed as [|f fs]; [|destruct critical];
        eexists; exists c1; eexists; rewrite <- ?app_assoc;
        (split; [reflexivity|]); (split; [exact Hinst|]);
        rewrite Hpaths, ?downloaded_app, Hdl2; simpl; now rewrite ?app_nil_r. }
  destruct Hremove as (res & c1 & d1 & Hrun1 & Hinst & Hpaths).
  destruct (restore_pkgs_effects h c1 (t ++ d1)) as (c2 & d2 & Hrun2 & _ & Hcmd & _).
  exists res, c1, c2, d1, d2.
  split; [exact Hrun1|]. split; [exact Hrun2|].
  rewrite Hcmd, Hinst, Hpaths.
  destruct (backup_paths (removed_pkgs c) ++ downloaded d1); reflexivity.
Qed.

(** ** The name of a backup file *)

Lemma rsplit_absent (c : ascii) (s : string) :
  occurs c s = false -> rsplit c s = None.
Proof.
  induction s as [|a s IH]; simpl; [reflexivity|].
  intros H. apply orb_false_elim in H. destruct H as [Ha Hs].
  now rewrite IH, Ha.
Qed.

Lemma rsplit_last (c : ascii) (pre post : string) :
  occurs c post = false ->
  rsplit c (pre ++ String c post) = Some (pre, post).
Proof.
  intros H. induction pre as [|a pre IH]; simpl.
  - now rewrite rsplit_absent, Ascii.eqb_refl.
  - now rewrite IH.
Qed.

Lemma occurs_app (c : ascii) (a b : string) :
  occurs c (a ++ b) = occurs c a || occurs c b.
Proof.
  induction a as [|x a IH]; simpl; [reflexivity|].
  now rewrite IH, orb_assoc.
Qed.

(** X16.  The name tracked for a reinstalled package is the name of its
    file without the directory and without the last extension: for a file
    name [stem.ext] in any directory, where [ext] has no dot and [stem] is
    not made of dots only, it is [stem]. *)
Theorem nvra_of_path_is_the_stem (dir stem ext : string) :
  occurs "/" stem = false ->
  occurs "/" ext = false ->
  occurs "." ext = false ->
  all_dots stem = false ->
  nvra_of_path (dir ++ String "/" (stem ++ String "." ext)) = stem
  /\ nvra_of_path (stem ++ String "." ext) = stem.
Proof.
  intros Hs1 Hs2 Hdot Hstem.
  assert (Hfile : occurs "/" (stem ++ String "." ext) = false).
  { rewrite occurs_app. simpl. now rewrite Hs1, Hs2. }
  unfold nvra_of_path, basename, splitext_root. split.
  - rewrite rsplit_last by exact Hfile.
    now rewrite rsplit_last, Hstem by exact Hdot.
  - rewrite (rsplit_absent "/") by exact Hfile.
    now rewrite rsplit_last, Hstem by exact Hdot.
Qed.

Lemma nvra_of_path_is_the_stem_witness :
  occurs "/" "centos-logos-80.5-2.el8.noarch" = false
  /\ occurs "/" "rpm" = false
  /\ occurs "." "rpm" = false
  /\ all_dots "centos-logos-80.5-2.el8.noarch" = false
  /\ nvra_of_path "/usr/share/convert2rhel/backup/centos-logos-80.5-2.el8.noarch.rpm"
     = "centos-logos-80.5-2.el8.noarch".
Proof.
  repeat (split; [reflexivity|]).
  apply (nvra_of_path_is_the_stem "/usr/share/convert2rhel/backup"
           "centos-logos-80.5-2.el8.noarch" "rpm"); reflexivity.
Defined.

(** ** One epoch, one line *)

(** X17.  On the yum notation, [remove_epoch_from_yum_nevra_notation]
    returns what follows the first colon up to the end of the line: only
    the leading epoch goes (a second run of digits and colon stays), and a
    newline with everything after it is dropped too. *)
Theorem remove_epoch_keeps_the_first_line_after_the_colon
    (ds line rest : string) :
  ds <> EmptyString ->
  all_digits ds = true ->
  no_newline line = true ->
  remove_epoch_from_yum_nevra_notation (ds ++ String ":" line) = line
  /\ remove_epoch_from_yum_nevra_notation
       (ds ++ String ":" (line ++ String "010" rest))
     = line
  /\ remove_epoch_from_yum_nevra_notation (ds ++ String ":" (ds ++ String ":" line))
     = (ds ++ String ":" line)%string.
Proof.
  intros Hne Hds Hline.
  assert (Hcut : forall a b, no_newline a = true ->
                             line_prefix (a ++ String "010" b) = a).
  { induction a as [|x a IH]; simpl; intros b H; [reflexivity|].
    apply andb_prop in H. destruct H as [Hx Ha].
    destruct (Ascii.eqb x "010"); [discriminate|]. now rewrite IH. }
  assert (Hdig : forall s, all_digits s = true -> no_newline s = true).
  { induction s as [|x s IH]; simpl; intros H; [reflexivity|].
    apply andb_prop in H. destruct H as [Hx Hs]. rewrite IH by exact Hs.
    destruct (Ascii.eqb_spec x "010") as [->|_]; [discriminate Hx|reflexivity]. }
  assert (Happ : forall a b, no_newline a = true -> no_newline b = true ->
                             no_newline (a ++ b) = true).
  { induction a as [|x a IH]; simpl; intros b Ha Hb; [exact Hb|].
    apply andb_prop in Ha. destruct Ha as [Hx Ha]. now rewrite Hx, IH. }
  rewrite !remove_epoch_of_yum_notation by assumption.
  split; [now apply line_prefix_no_newline|]. split; [now apply Hcut|].
  apply line_prefix_no_newline, Happ; [now apply Hdig|exact Hline].
Qed.

Lemma remove_epoch_keeps_the_first_line_after_the_colon_witness :
  "7" <> EmptyString
  /\ all_digits "7" = true
  /\ no_newline "foo-1.0-1.el7.x86_64" = true
  /\ remove_epoch_from_yum_nevra_notation "7:7:foo-1.0-1.el7.x86_64"
     = "7:foo-1.0-1.el7.x86_64".
Proof.
  split; [discriminate|]. split; [reflexivity|]. split; [reflexivity|].
  apply (remove_epoch_keeps_the_first_line_after_the_colon "7"
           "foo-1.0-1.el7.x86_64" ""); [discriminate|reflexivity|reflexivity].
Defined.

(** ** Tracking installed packages *)

(** X18.  Tracking a list of installed packages is tracking them one by
    one, after those tracked before; a later [restore_pkgs] erases every
    one of them, in the order they were tracked, before it reinstalls
    anything. *)
Theorem tracked_installed_pkgs_are_erased_in_order
    (h : Host) (pkgs : list string) (self : ChangedRPMPackagesController)
    (t : trace) :
  track_installed_pkgs pkgs self
  = fold_left (fun c pkg => track_installed_pkg pkg c) pkgs self
  /\ exists (self' : ChangedRPMPackagesController) (d : trace)
            (reinstall : list (list string)),
       restore_pkgs h (track_installed_pkgs pkgs self) t = (Return tt, self', t ++ d)
       /\ commands d
          = map erase_command (installed_pkgs self) ++ map erase_command pkgs
              ++ reinstall
       /\ List.length reinstall <= 1.
Proof.
  split.
  - revert self. induction pkgs as [|p pkgs IH]; intros self.
    + unfold track_installed_pkgs. simpl. rewrite app_nil_r.
      destruct self; reflexivity.
    + simpl. rewrite <- IH. unfold track_installed_pkgs, track_installed_pkg.
      simpl. rewrite <- app_assoc. reflexivity.
  - destruct (restore_pkgs_effects h (track_installed_pkgs pkgs self) t)
      as (self' & d & Hrun & _ & Hcmd & _).
    exists self', d. eexists. split; [exact Hrun|].
    rewrite Hcmd. simpl. rewrite map_app, <- app_assoc.
    split; [reflexivity|].
    destruct (backup_paths (removed_pkgs self)); simpl; lia.
Qed.
